(** * blackroad-ipfs-gateway: a local content-addressed object store

    Shallow embedding of [src/ipfs_gateway.py] (class [IPFSGateway]) and the
    properties of its storage engine: digest computation, blob placement,
    the metadata index, pin-based retention, garbage collection and the
    export manifest.

    The state the gateway owns is modelled explicitly and threaded through
    every operation:
    - the file system, a finite map from path strings to the contents of
      regular files (the blobs under [STORE_DIR] live there, next to the
      caller's files); a path is taken as written, already normalised, and
      directories are not files;
    - the [objects] table of the SQLite database, a list of rows in rowid
      order, on which the schema's PRIMARY KEY and UNIQUE constraints are
      an explicit predicate;
    - the lines printed on standard output.
    The clock read by [datetime.now()] is an explicit argument.  Calls run
    one after the other and run to completion; an exception is a value.

    What the gateway takes from Python's libraries is modelled next to it:
    SHA-256, the date arithmetic and ISO format of [datetime], the name and
    suffix of a [pathlib] path.  [json.dumps] and the home directory are
    parameters. *)

From Stdlib Require Import ZArith Lia String Ascii List.
From Stdlib.Strings Require Import Byte.
From stdpp Require Import base option list gmap strings pretty.

Local Open Scope Z_scope.

(** ** SHA-256 ([hashlib.sha256]), on 32-bit words carried by [Z] *)

Module SHA256.

Definition mask32 : Z := 0xFFFFFFFF.

Definition add32 (x y : Z) : Z := Z.land (x + y) mask32.
Definition rotr (n x : Z) : Z :=
  Z.lor (Z.shiftr x n) (Z.land (Z.shiftl x (32 - n)) mask32).
Definition shr (n x : Z) : Z := Z.shiftr x n.
Definition not32 (x : Z) : Z := Z.lxor x mask32.

Definition Ch (x y z : Z) : Z := Z.lxor (Z.land x y) (Z.land (not32 x) z).
Definition Maj (x y z : Z) : Z :=
  Z.lxor (Z.lxor (Z.land x y) (Z.land x z)) (Z.land y z).
Definition Sigma0 (x : Z) : Z := Z.lxor (Z.lxor (rotr 2 x) (rotr 13 x)) (rotr 22 x).
Definition Sigma1 (x : Z) : Z := Z.lxor (Z.lxor (rotr 6 x) (rotr 11 x)) (rotr 25 x).
Definition sigma0 (x : Z) : Z := Z.lxor (Z.lxor (rotr 7 x) (rotr 18 x)) (shr 3 x).
Definition sigma1 (x : Z) : Z := Z.lxor (Z.lxor (rotr 17 x) (rotr 19 x)) (shr 10 x).

(** The round constants are the first 32 bits of the fractional parts of
    the cube roots of the first 64 primes, the initial hash value those of
    the square roots of the first 8 primes. *)
Definition is_prime (n : Z) : bool :=
  forallb (fun d => negb (n mod d =? 0)) (seqZ 2 (Z.sqrt n - 1)).

Definition primes : list Z := filter (fun n => is_prime n = true) (seqZ 2 310).

Fixpoint cube_root_bits (bits : nat) (x r : Z) : Z :=
  match bits with
  | O => r
  | S bits' =>
      let r' := r + Z.shiftl 1 (Z.of_nat bits') in
      cube_root_bits bits' x (if r' * r' * r' <=? x then r' else r)
  end.

Definition frac_cube_root (p : Z) : Z :=
  Z.land (cube_root_bits 40 (Z.shiftl p 96) 0) mask32.
Definition frac_square_root (p : Z) : Z :=
  Z.land (Z.sqrt (Z.shiftl p 64)) mask32.

Definition K : list Z := Eval vm_compute in frac_cube_root <$> primes.
Definition H0 : list Z := Eval vm_compute in frac_square_root <$> take 8 primes.

Definition byte_val (b : byte) : Z := Z.of_N (Byte.to_N b).

(** Padding: a [0x80] byte, zero bytes up to 56 modulo 64, then the
    message length in bits as a 64-bit big-endian integer. *)
Fixpoint be_bytes (n : nat) (v : Z) : list Z :=
  match n with
  | O => []
  | S n' => Z.land (Z.shiftr v (8 * Z.of_nat n')) 0xFF :: be_bytes n' v
  end.

Definition pad (msg : list byte) : list Z :=
  let len := Z.of_nat (length msg) in
  let zeros := Z.to_nat ((55 - len) mod 64) in
  (byte_val <$> msg) ++ [0x80] ++ replicate zeros 0 ++ be_bytes 8 (8 * len).

Fixpoint be_words (bs : list Z) : list Z :=
  match bs with
  | a :: b :: c :: d :: rest =>
      Z.lor (Z.shiftl a 24) (Z.lor (Z.shiftl b 16) (Z.lor (Z.shiftl c 8) d))
      :: be_words rest
  | _ => []
  end.

Fixpoint blocks (fuel : nat) (ws : list Z) : list (list Z) :=
  match fuel, ws with
  | S fuel', _ :: _ => take 16 ws :: blocks fuel' (drop 16 ws)
  | _, _ => []
  end.

(** The message schedule, kept most recent word first, so that
    [W(t-2)], [W(t-7)], [W(t-15)] and [W(t-16)] sit at fixed offsets. *)
Definition sched_step (rw : list Z) : list Z :=
  add32 (add32 (add32 (sigma1 (nth 1 rw 0)) (nth 6 rw 0)) (sigma0 (nth 14 rw 0)))
        (nth 15 rw 0) :: rw.

Definition schedule (block : list Z) : list Z :=
  rev (Nat.iter 48 sched_step (rev block)).

Definition round (st : list Z) (kw : Z * Z) : list Z :=
  match st with
  | [a; b; c; d; e; f; g; h] =>
      let t1 := add32 (add32 (add32 (add32 h (Sigma1 e)) (Ch e f g)) (fst kw)) (snd kw) in
      let t2 := add32 (Sigma0 a) (Maj a b c) in
      [add32 t1 t2; a; b; c; add32 d t1; e; f; g]
  | _ => st
  end.

Definition compress (h : list Z) (block : list Z) : list Z :=
  zip_with add32 h (fold_left round (zip K (schedule block)) h).

Definition digest_words (msg : list byte) : list Z :=
  let ws := be_words (pad msg) in
  fold_left compress (blocks (length ws) ws) H0.

Definition hex_digit (v : Z) : ascii :=
  ascii_of_N (Z.to_N (if v <? 10 then 48 + v else 87 + v)).

Fixpoint hex_nibbles (n : nat) (v : Z) : string :=
  match n with
  | O => EmptyString
  | S n' => String (hex_digit (Z.land (Z.shiftr v (4 * Z.of_nat n')) 0xF))
                   (hex_nibbles n' v)
  end.

(** [hashlib.sha256(data).hexdigest()]: 64 lower-case hexadecimal digits. *)
Definition hexdigest (msg : list byte) : string :=
  fold_right (fun w s => String.append (hex_nibbles 8 w) s) EmptyString
             (digest_words msg).

End SHA256.

(** ** Naive date-times ([datetime.datetime], [datetime.timedelta])

    The fields Python stores, with the proleptic Gregorian ordinal
    arithmetic of the reference implementation behind [+] and [-]. *)

Module Datetime.

Record datetime := mk_datetime {
  year : Z; month : Z; day : Z;
  hour : Z; minute : Z; second : Z; microsecond : Z
}.

(** A normalised [timedelta]: [0 <= seconds < 86400] and
    [0 <= microseconds < 1000000]. *)
Record timedelta := mk_timedelta {
  days : Z; seconds : Z; microseconds : Z
}.

Definition _MAXORDINAL : Z := 3652059.
Definition _DAYS_IN_MONTH : list Z :=
  [-1; 31; 28; 31; 30; 31; 30; 31; 31; 30; 31; 30; 31].
Definition _DAYS_BEFORE_MONTH : list Z :=
  [-1; 0; 31; 59; 90; 120; 151; 181; 212; 243; 273; 304; 334].

Definition index (l : list Z) (i : Z) : Z := nth (Z.to_nat i) l 0.
Definition Z_of_bool (b : bool) : Z := if b then 1 else 0.

Definition _is_leap (y : Z) : bool :=
  (y mod 4 =? 0) && (negb (y mod 100 =? 0) || (y mod 400 =? 0)).

Definition _days_before_year (y : Z) : Z :=
  let y := y - 1 in y * 365 + y / 4 - y / 100 + y / 400.

Definition _days_in_month (y m : Z) : Z :=
  if (m =? 2) && _is_leap y then 29 else index _DAYS_IN_MONTH m.

Definition _days_before_month (y m : Z) : Z :=
  index _DAYS_BEFORE_MONTH m + Z_of_bool ((2 <? m) && _is_leap y).

Definition _ymd2ord (y m d : Z) : Z :=
  _days_before_year y + _days_before_month y m + d.

Definition _DI400Y : Z := 146097.
Definition _DI100Y : Z := 36524.
Definition _DI4Y : Z := 1461.

Definition _ord2ymd (n : Z) : Z * Z * Z :=
  let n := n - 1 in
  let n400 := n / _DI400Y in
  let n := n mod _DI400Y in
  let y := n400 * 400 + 1 in
  let n100 := n / _DI100Y in
  let n := n mod _DI100Y in
  let n4 := n / _DI4Y in
  let n := n mod _DI4Y in
  let n1 := n / 365 in
  let n := n mod 365 in
  let y := y + (n100 * 100 + n4 * 4 + n1) in
  if (n1 =? 4) || (n100 =? 4) then (y - 1, 12, 31)
  else
    let leapyear := (n1 =? 3) && (negb (n4 =? 24) || (n100 =? 3)) in
    let m := Z.shiftr (n + 50) 5 in
    let preceding := index _DAYS_BEFORE_MONTH m + Z_of_bool ((2 <? m) && leapyear) in
    if n <? preceding then
      let m := m - 1 in
      let preceding :=
        preceding - (index _DAYS_IN_MONTH m + Z_of_bool ((m =? 2) && leapyear)) in
      (y, m, n - preceding + 1)
    else (y, m, n - preceding + 1).

(** The [timedelta] constructor carries microseconds into seconds and
    seconds into days, with floor division. *)
Definition normalize (d s us : Z) : timedelta :=
  let s := s + us / 1000000 in
  let us := us mod 1000000 in
  let d := d + s / 86400 in
  let s := s mod 86400 in
  mk_timedelta d s us.

Definition timedelta_hours (h : Z) : timedelta := normalize 0 (h * 3600) 0.
Definition timedelta_seconds (s : Z) : timedelta := normalize 0 s 0.

Definition td_neg (t : timedelta) : timedelta :=
  normalize (- days t) (- seconds t) (- microseconds t).
Definition td_add (a b : timedelta) : timedelta :=
  normalize (days a + days b) (seconds a + seconds b)
            (microseconds a + microseconds b).

Definition toordinal (t : datetime) : Z := _ymd2ord (year t) (month t) (day t).

(** [datetime.__add__]: [None] stands for [OverflowError]. *)
Definition dt_add (t : datetime) (d : timedelta) : option datetime :=
  let delta :=
    td_add (normalize (toordinal t)
                      (hour t * 3600 + minute t * 60 + second t)
                      (microsecond t)) d in
  let hh := seconds delta / 3600 in
  let rem := seconds delta mod 3600 in
  let mm := rem / 60 in
  let ss := rem mod 60 in
  if (0 <? days delta) && (days delta <=? _MAXORDINAL) then
    let '(y, m, dd) := _ord2ymd (days delta) in
    Some (mk_datetime y m dd hh mm ss (microseconds delta))
  else None.

(** [datetime.__sub__] with a [timedelta]: [self + -other]. *)
Definition dt_sub (t : datetime) (d : timedelta) : option datetime :=
  dt_add t (td_neg d).

Definition digit (v : Z) : ascii := ascii_of_N (Z.to_N (48 + v mod 10)).

(** ["%0wd"] for [0 <= n < 10^w]. *)
Fixpoint zpad (w : nat) (n : Z) : string :=
  match w with
  | O => EmptyString
  | S w' => String (digit (n / 10 ^ Z.of_nat w')) (zpad w' n)
  end.

(** [datetime.isoformat()] with the default separator and [timespec]:
    the fraction is printed only when it is not zero. *)
Definition isoformat (t : datetime) : string :=
  zpad 4 (year t) +:+ "-" +:+ zpad 2 (month t) +:+ "-" +:+ zpad 2 (day t)
  +:+ "T" +:+ zpad 2 (hour t) +:+ ":" +:+ zpad 2 (minute t)
  +:+ ":" +:+ zpad 2 (second t)
  +:+ (if microsecond t =? 0 then "" else "." +:+ zpad 6 (microsecond t)).

(** Month and day of a calendar date of year [y]. *)
Definition valid_date (y m d : Z) : Prop :=
  1 <= m <= 12 /\ 1 <= d <= _days_in_month y m.

(** Values a [datetime] object can hold. *)
Definition valid (t : datetime) : Prop :=
  1 <= year t <= 9999 /\ 1 <= month t <= 12 /\
  1 <= day t <= _days_in_month (year t) (month t) /\
  0 <= hour t < 24 /\ 0 <= minute t < 60 /\ 0 <= second t < 60 /\
  0 <= microsecond t < 1000000.

(** Comparison of two date-times: field by field, as tuples. *)
Definition fields (t : datetime) : list Z :=
  [year t; month t; day t; hour t; minute t; second t; microsecond t].

Fixpoint lex_ltb (a b : list Z) : bool :=
  match a, b with
  | x :: a', y :: b' => (x <? y) || ((x =? y) && lex_ltb a' b')
  | _, _ => false
  end.

Definition dt_ltb (a b : datetime) : bool := lex_ltb (fields a) (fields b).

(** The instant of a date-time and the length of a [timedelta], both in
    microseconds ([timedelta.__sub__] of two date-times measures the
    former, [timedelta / timedelta(microseconds=1)] the latter). *)
Definition micros (t : datetime) : Z :=
  (toordinal t * 86400 + hour t * 3600 + minute t * 60 + second t) * 1000000
  + microsecond t.

Definition td_micros (d : timedelta) : Z :=
  (days d * 86400 + seconds d) * 1000000 + microseconds d.

End Datetime.

Definition bytes_of_string (s : string) : list byte :=
  (fun c => match Byte.of_N (N_of_ascii c) with Some b => b | None => x00 end)
    <$> list_ascii_of_string s.

(** ** Path and string helpers ([pathlib], f-strings) *)

Definition str_mem (c : ascii) (s : string) : bool :=
  existsb (Ascii.eqb c) (list_ascii_of_string s).


(** [Path(p).name]: the final component of a normalised path. *)
Fixpoint path_name (p : string) : string :=
  match p with
  | EmptyString => EmptyString
  | String x p' =>
      if str_mem "/" p' then path_name p'
      else if Ascii.eqb x "/" then p' else p
  end.

(** [s.rfind(c)], [None] for [-1]. *)
Fixpoint rfind (c : ascii) (s : string) : option nat :=
  match s with
  | EmptyString => None
  | String x s' =>
      match rfind c s' with
      | Some i => Some (S i)
      | None => if Ascii.eqb x c then Some O else None
      end
  end.

(** [Path(p).suffix]: from the last dot of the name, unless that dot is
    the first or the last character. *)
Definition path_suffix (p : string) : string :=
  let nm := path_name p in
  match rfind "." nm with
  | Some i =>
      if (0 <? i)%nat && (i <? String.length nm - 1)%nat
      then String.substring i (String.length nm - i) nm
      else EmptyString
  | None => EmptyString
  end.

(** [dir / leaf] for a relative, slash-free [leaf]. *)
Definition path_join (dir leaf : string) : string := dir +:+ "/" +:+ leaf.

(** [repr] of a string without quotes, backslashes or control characters. *)
Definition py_repr (s : string) : string := "'" +:+ s +:+ "'".

(** [TEXT] comparison under SQLite's BINARY collation: byte-wise, a proper
    prefix sorts first. *)
Fixpoint str_ltb (a b : string) : bool :=
  match a, b with
  | _, EmptyString => false
  | EmptyString, String _ _ => true
  | String x a', String y b' =>
      (N_of_ascii x <? N_of_ascii y)%N
      || ((N_of_ascii x =? N_of_ascii y)%N && str_ltb a' b')
  end.

(** ** Data model *)

(** The [ContentObject] dataclass, which is also the row type of the
    [objects] table. *)
Record ContentObject := mk_object {
  cid : string;
  name : string;
  size_bytes : Z;
  mime_type : string;
  pinned : bool;
  uploaded_at : string;
  local_path : string
}.

#[global] Instance ContentObject_eq_dec : EqDecision ContentObject.
Proof. solve_decision. Defined.

Definition with_pinned (v : bool) (o : ContentObject) : ContentObject :=
  mk_object (cid o) (name o) (size_bytes o) (mime_type o) v
            (uploaded_at o) (local_path o).

(** Values handed to or produced by the [json] module. *)
#[local] Unset Elimination Schemes.
Inductive json :=
| JNull
| JBool (b : bool)
| JInt (n : Z)
| JStr (s : string)
| JList (l : list json)
| JDict (kv : list (string * json)).
#[local] Set Elimination Schemes.

(** [dataclasses.asdict]: the fields in declaration order. *)
Definition asdict (o : ContentObject) : json :=
  JDict [ ("cid", JStr (cid o)); ("name", JStr (name o));
          ("size_bytes", JInt (size_bytes o)); ("mime_type", JStr (mime_type o));
          ("pinned", JBool (pinned o)); ("uploaded_at", JStr (uploaded_at o));
          ("local_path", JStr (local_path o)) ]%string.

Inductive exn :=
| FileNotFoundError (msg : string)
| SameFileError (src dst : string)
| OverflowError (msg : string).

Inductive result (A : Type) :=
| Ok (a : A)
| Raise (e : exn).
Arguments Ok {A} a.
Arguments Raise {A} e.

(** The state every operation reads and writes. *)
Record World := mk_world {
  fs : gmap string (list byte);     (* regular files by path *)
  db : list ContentObject;          (* the objects table, in rowid order *)
  stdout : list string              (* lines printed so far *)
}.

Definition set_fs (f : gmap string (list byte)) (w : World) : World :=
  mk_world f (db w) (stdout w).
Definition set_db (d : list ContentObject) (w : World) : World :=
  mk_world (fs w) d (stdout w).
Definition print (line : string) (w : World) : World :=
  mk_world (fs w) (db w) (stdout w ++ [line]).

(** The constraints of the schema: [cid TEXT PRIMARY KEY] and
    [local_path TEXT UNIQUE]. *)
Definition schema_ok (d : list ContentObject) : Prop :=
  NoDup (cid <$> d) /\ NoDup (local_path <$> d).

(** [SELECT * FROM objects WHERE cid = ?] followed by [fetchone]. *)
Definition find_cid (c : string) (d : list ContentObject) : option ContentObject :=
  List.find (fun r => String.eqb (cid r) c) d.

(** ** The gateway ([class IPFSGateway]) *)

Section Gateway.

(** [Path.home()], and [json.dumps(v, indent=2)] encoded as bytes. *)
Variable home : string.
Variable json_dumps : json -> list byte.

Definition STORE_DIR : string := home +:+ "/.blackroad/ipfs-store".

(** [_compute_cid]: ["Qm"] followed by the first 44 hexadecimal digits
    of the SHA-256 digest. *)
Definition _compute_cid (data : list byte) : string :=
  "Qm" +:+ String.substring 0 44 (SHA256.hexdigest data).

(** [_store_metadata]: [INSERT OR REPLACE] first deletes every row that
    conflicts with the new one on the primary key or on the unique
    column, then inserts the new row with a fresh rowid. *)
Definition _store_metadata (obj : ContentObject) (w : World) : World :=
  set_db (filter (fun r => cid r ≠ cid obj /\ local_path r ≠ local_path obj) (db w)
          ++ [obj]) w.

Definition guess_mime (suffix : string) : string :=
  if String.eqb suffix ".json" then "application/json"
  else if String.eqb suffix ".txt" then "text/plain"
  else if String.eqb suffix ".md" then "text/markdown"
  else "application/octet-stream".

(** [add_file].  [shutil.copy2] refuses to copy a file onto itself. *)
Definition add_file (path : string) (now : Datetime.datetime) (w : World)
  : result ContentObject * World :=
  match fs w !! path with
  | None => (Raise (FileNotFoundError ("File not found: " +:+ path)), w)
  | Some data =>
      let c := _compute_cid data in
      let mime := guess_mime (path_suffix path) in
      let lp := path_join STORE_DIR c in
      if String.eqb path lp then (Raise (SameFileError path lp), w)
      else
        let w1 := set_fs (<[lp := data]> (fs w)) w in
        let obj := mk_object c (path_name path) (Z.of_nat (length data)) mime
                             false (Datetime.isoformat now) lp in
        (Ok obj, _store_metadata obj w1)
  end.

(** [add_json]. *)
Definition add_json (data : json) (nm : string) (now : Datetime.datetime)
           (w : World) : ContentObject * World :=
  let json_bytes := json_dumps data in
  let c := _compute_cid json_bytes in
  let lp := path_join STORE_DIR c in
  let w1 := set_fs (<[lp := json_bytes]> (fs w)) w in
  let obj := mk_object c nm (Z.of_nat (length json_bytes)) "application/json"
                       false (Datetime.isoformat now) lp in
  (obj, _store_metadata obj w1).

(** [get]: the first row whose [cid] matches, or [None]. *)
Definition get (w : World) (c : string) : option ContentObject :=
  find_cid c (db w).

(** [UPDATE objects SET pinned = v WHERE cid = c]. *)
Definition update_pinned (c : string) (v : bool) (w : World) : World :=
  set_db ((fun r => if String.eqb (cid r) c then with_pinned v r else r) <$> db w) w.

Definition pin (c : string) (w : World) : bool * World :=
  match get w c with
  | None => (false, w)
  | Some _ => (true, update_pinned c true w)
  end.

Definition unpin (c : string) (w : World) : bool * World :=
  match get w c with
  | None => (false, w)
  | Some _ => (true, update_pinned c false w)
  end.

(** The query of [gc]:
    [SELECT cid, local_path FROM objects WHERE pinned = 0 AND uploaded_at < ?]. *)
Definition gc_eligible (cutoff_time : string) (r : ContentObject) : bool :=
  negb (pinned r) && str_ltb (uploaded_at r) cutoff_time.

Definition gc_select (cutoff_time : string) (d : list ContentObject)
  : list (string * string) :=
  (fun r => (cid r, local_path r))
    <$> filter (fun r => gc_eligible cutoff_time r = true) d.

(** One turn of the loop of [gc]: [unlink] raises when the file is
    missing, which skips the [DELETE] and prints the error. *)
Definition gc_item (w : World) (row : string * string) : World :=
  let '(c, lp) := row in
  match fs w !! lp with
  | Some _ =>
      set_db (filter (fun r => cid r ≠ c) (db w)) (set_fs (delete lp (fs w)) w)
  | None =>
      print ("Error deleting " +:+ c +:+ ": [Errno 2] No such file or directory: "
             +:+ py_repr lp) w
  end.

Definition gc_sweep (rows : list (string * string)) (w : World) : World :=
  fold_left gc_item rows w.

(** The rows of a sweep whose [unlink] succeeds, when no two of them share
    a path: those whose file is there at the start. *)
Definition unlinked (w : World) (rows : list (string * string))
  : list (string * string) :=
  filter (fun row => is_Some (fs w !! row.2)) rows.

(** [gc]: the cutoff is 24 hours before [now]; the value returned is
    [len(rows)]. *)
Definition gc (now : Datetime.datetime) (w : World) : result Z * World :=
  match Datetime.dt_sub now (Datetime.timedelta_hours 24) with
  | None => (Raise (OverflowError "date value out of range"), w)
  | Some cutoff =>
      let rows := gc_select (Datetime.isoformat cutoff) (db w) in
      (Ok (Z.of_nat (length rows)), gc_sweep rows w)
  end.

(** [ls]: an empty or absent [cid] lists the whole table. *)
Definition ls (c : option string) (w : World) : list ContentObject :=
  match c with
  | Some (String _ _ as c') => filter (fun r => cid r = c') (db w)
  | _ => db w
  end.

Definition stat (c : string) (w : World) : option json :=
  match get w c with
  | None => None
  | Some obj =>
      Some (JDict [ ("cid", JStr c); ("name", JStr (name obj));
                    ("size_bytes", JInt (size_bytes obj));
                    ("mime_type", JStr (mime_type obj));
                    ("pinned", JBool (pinned obj));
                    ("uploaded_at", JStr (uploaded_at obj)) ]%string)
  end.

Definition proxy_url (c gateway : string) : string := gateway +:+ "/ipfs/" +:+ c.

(** [export_car]: the value handed to [json.dump], then the file write. *)
Definition export_objects (cids : list string) (w : World) : list json :=
  omap (fun c => asdict <$> get w c) cids.

Definition export_bundle (cids : list string) (w : World) : json :=
  JDict [ ("version", JInt 1); ("objects", JList (export_objects cids w)) ]%string.

Definition export_car (cids : list string) (output_path : string) (w : World)
  : World :=
  set_fs (<[output_path := json_dumps (export_bundle cids w)]> (fs w)) w.

(** *** Sequences of calls *)

Inductive call :=
| CallAddFile (path : string) (now : Datetime.datetime)
| CallAddJson (data : json) (nm : string) (now : Datetime.datetime)
| CallPin (c : string)
| CallUnpin (c : string)
| CallGc (now : Datetime.datetime)
| CallExport (cids : list string) (output_path : string).

Definition run (w : World) (k : call) : World :=
  match k with
  | CallAddFile path now => snd (add_file path now w)
  | CallAddJson data nm now => snd (add_json data nm now w)
  | CallPin c => snd (pin c w)
  | CallUnpin c => snd (unpin c w)
  | CallGc now => snd (gc now w)
  | CallExport cids output_path => export_car cids output_path w
  end.

Definition run_all (w : World) (ks : list call) : World := fold_left run ks w.


(** Referential integrity of a state. *)
Definition blob_of_record (w : World) : Prop :=
  forall r, r ∈ db w -> is_Some (fs w !! local_path r).



(** *** The command line ([main])

    The namespace [argparse] returns, one constructor per sub-command;
    [ArgsNone] is a command line without sub-command. *)
Inductive args :=
| ArgsAdd (path : string)
| ArgsLs (c : option string)
| ArgsGet (c : string)
| ArgsStat (c : string)
| ArgsPin (c : string)
| ArgsGc
| ArgsNone.

(** [json.dumps(v, indent=2)] as the [str] that [print] receives. *)
Definition json_text (v : json) : string := String.string_of_list_byte (json_dumps v).

Definition ls_line (obj : ContentObject) : string :=
  cid obj +:+ " " +:+ name obj +:+ " (" +:+ pretty (size_bytes obj) +:+ " bytes)".

(** [main] after [parser.parse_args()]: an exception of the gateway is
    not caught. *)
Definition main (a : args) (now : Datetime.datetime) (w : World)
  : result unit * World :=
  match a with
  | ArgsAdd path =>
      match add_file path now w with
      | (Ok obj, w') =>
          (Ok tt, print ("Added: " +:+ cid obj +:+ " (" +:+ name obj +:+ ")") w')
      | (Raise e, w') => (Raise e, w')
      end
  | ArgsLs c =>
      (Ok tt, fold_left (fun w' obj => print (ls_line obj) w') (ls c w) w)
  | ArgsGet c =>
      match get w c with
      | Some obj => (Ok tt, print (json_text (asdict obj)) w)
      | None => (Ok tt, print "Not found" w)
      end
  | ArgsStat c =>
      match stat c w with
      | Some st => (Ok tt, print (json_text st) w)
      | None => (Ok tt, print "Not found" w)
      end
  | ArgsPin c =>
      match pin c w with
      | (true, w') => (Ok tt, print ("Pinned: " +:+ c) w')
      | (false, w') => (Ok tt, print "Not found" w')
      end
  | ArgsGc =>
      match gc now w with
      | (Ok count, w') =>
          (Ok tt, print ("Garbage collected " +:+ pretty count +:+ " objects") w')
      | (Raise e, w') => (Raise e, w')
      end
  | ArgsNone => (Ok tt, w)
  end.

End Gateway.

(** ** Sample states *)

Module Sample.

Definition home : string := "/home/u".

(** A stand-in for [json.dumps]; the properties below hold for any. *)
Definition dumps (v : json) : list byte :=
  match v with
  | JDict _ => bytes_of_string "{}"
  | _ => bytes_of_string "null"
  end.

Definition noon : Datetime.datetime := Datetime.mk_datetime 2024 3 1 12 0 0 0.
Definition later : Datetime.datetime := Datetime.mk_datetime 2024 3 3 12 0 0 500.

Definition blob_path (c : string) : string := path_join (STORE_DIR home) c.

(** An unpinned row uploaded long before [noon], and a pinned one. *)
Definition old_row : ContentObject :=
  mk_object "QmOld" "old.txt" 2 "text/plain" false "2023-12-31T08:30:00"
            (blob_path "QmOld").
Definition kept_row : ContentObject :=
  mk_object "QmKept" "kept.md" 3 "text/markdown" true "2020-01-01T00:00:00"
            (blob_path "QmKept").

(** A user's file and nothing else. *)
Definition fresh : World :=
  mk_world {[ "/tmp/hello.txt"%string := bytes_of_string "hi";
              "/tmp/copy.md"%string := bytes_of_string "hi" ]} [] [].

(** Two rows with their blobs. *)
Definition stocked : World :=
  mk_world {[ blob_path "QmOld" := bytes_of_string "hi";
              blob_path "QmKept" := bytes_of_string "abc" ]}
           [old_row; kept_row] [].

(** Another unpinned row uploaded long before [noon]. *)
Definition stale_row : ContentObject :=
  mk_object "QmStale" "stale.json" 2 "application/json" false "2024-01-15T23:59:59.250000"
            (blob_path "QmStale").

(** Three rows, the first without its blob: the file was removed behind
    the gateway's back. *)
Definition dangling : World :=
  mk_world {[ blob_path "QmStale" := bytes_of_string "{}";
              blob_path "QmKept" := bytes_of_string "abc" ]}
           [old_row; stale_row; kept_row] [].

(** Seen from [later], whose cutoff is 2024-03-02T12:00:00.000500: a row
    uploaded one second before the cutoff and a row uploaded one second
    after it, both unpinned, both with their blobs. *)
Definition before_row : ContentObject :=
  mk_object "QmBefore" "a.txt" 2 "text/plain" false "2024-03-02T11:59:59.000500"
            (blob_path "QmBefore").
Definition after_row : ContentObject :=
  mk_object "QmAfter" "b.txt" 2 "text/plain" false "2024-03-02T12:00:01.000500"
            (blob_path "QmAfter").

Definition boundary : World :=
  mk_world {[ blob_path "QmBefore" := bytes_of_string "hi";
              blob_path "QmAfter" := bytes_of_string "yo" ]}
           [before_row; after_row] [].

End Sample.

(** * Properties *)

(** Closed decidable side conditions are settled by evaluation. *)
Ltac by_compute :=
  match goal with
  | |- ?G => apply (bool_decide_eq_true_1 G); vm_compute; reflexivity
  end.

(** Case analysis on a month number, and evaluation of the closed table
    look-ups and comparisons that it leaves. *)
Ltac month_cases m :=
  let H := fresh "Hm" in
  assert (m = 1 \/ m = 2 \/ m = 3 \/ m = 4 \/ m = 5 \/ m = 6 \/ m = 7 \/ m = 8 \/
          m = 9 \/ m = 10 \/ m = 11 \/ m = 12) as H by lia;
  repeat (destruct H as [H|H]; [subst m|]); [..|subst m].

Ltac is_literal v :=
  match v with
  | true => idtac
  | false => idtac
  | Z0 => idtac
  | Zpos _ => idtac
  | Zneg _ => idtac
  end.

Ltac eval_closed t :=
  let v := eval vm_compute in t in
  is_literal v; progress change t with v in *.

Ltac eval_tables :=
  repeat match goal with
    | |- context [Datetime.index ?l ?i] => eval_closed (Datetime.index l i)
    | H : context [Datetime.index ?l ?i] |- _ => eval_closed (Datetime.index l i)
    | |- context [Z.eqb ?a ?b] => eval_closed (Z.eqb a b)
    | H : context [Z.eqb ?a ?b] |- _ => eval_closed (Z.eqb a b)
    | |- context [Z.ltb ?a ?b] => eval_closed (Z.ltb a b)
    | H : context [Z.ltb ?a ?b] |- _ => eval_closed (Z.ltb a b)
    end;
  cbn [andb orb negb Datetime.Z_of_bool] in *.

(** ** Values computed by the libraries the gateway calls *)

Example datetime_values :
  Datetime.isoformat (Datetime.mk_datetime 2024 3 1 0 5 9 0) = "2024-03-01T00:05:09"
  /\ Datetime.isoformat (Datetime.mk_datetime 987 12 31 23 59 59 1200)
     = "0987-12-31T23:59:59.001200"
  /\ Datetime.dt_sub (Datetime.mk_datetime 2024 3 1 0 5 9 0) (Datetime.timedelta_hours 24)
     = Some (Datetime.mk_datetime 2024 2 29 0 5 9 0)
  /\ Datetime.dt_sub (Datetime.mk_datetime 1900 3 1 1 2 3 4) (Datetime.timedelta_hours 24)
     = Some (Datetime.mk_datetime 1900 2 28 1 2 3 4)
  /\ Datetime.dt_sub (Datetime.mk_datetime 2023 3 1 0 0 0 0) (Datetime.timedelta_seconds 1)
     = Some (Datetime.mk_datetime 2023 2 28 23 59 59 0)
  /\ Datetime.dt_add (Datetime.mk_datetime 2000 12 31 23 59 59 999999)
                     (Datetime.timedelta_seconds 1)
     = Some (Datetime.mk_datetime 2001 1 1 0 0 0 999999)
  /\ Datetime.dt_sub (Datetime.mk_datetime 1 1 1 5 0 0 0) (Datetime.timedelta_hours 24)
     = None
  /\ Datetime._ord2ymd 730920 = (2002, 3, 11)
  /\ Datetime._ymd2ord 9999 12 31 = Datetime._MAXORDINAL
  /\ Datetime._ord2ymd 146097 = (400, 12, 31)
  /\ Datetime._ord2ymd 1461 = (4, 12, 31).
Proof. vm_compute. repeat split; reflexivity. Qed.

Example path_values :
  path_name "/a/b.c/foo.tar.gz" = "foo.tar.gz" /\ path_suffix "/a/b.c/foo.tar.gz" = ".gz"
  /\ path_suffix ".bashrc" = "" /\ path_suffix "a/b." = ""
  /\ path_name "/tmp/hello.txt" = "hello.txt" /\ path_suffix "/tmp/hello.txt" = ".txt"
  /\ path_name "x" = "x" /\ path_suffix "x" = ""
  /\ guess_mime (path_suffix "notes.md") = "text/markdown"
  /\ guess_mime (path_suffix "blob.bin") = "application/octet-stream".
Proof. vm_compute. repeat split; reflexivity. Qed.

Example str_ltb_values :
  str_ltb "2024-03-02T12:00:00" "2024-03-02T12:00:00.000500" = true
  /\ str_ltb "2024-03-02T12:00:00.900000" "2024-03-02T12:00:01" = true
  /\ str_ltb "2024-03-02T12:00:00" "2024-03-02T12:00:00" = false
  /\ str_ltb "2024-03-10T00:00:00" "2024-03-09T23:59:59.999999" = false.
Proof. vm_compute. repeat split; reflexivity. Qed.

(** ** Calendar arithmetic *)

Section Calendar.

Import Datetime.

Lemma days_before_year_succ y :
  _days_before_year (y + 1) = _days_before_year y + 365 + Z_of_bool (_is_leap y).
Proof.
  unfold _days_before_year, _is_leap, Z_of_bool.
  replace (y + 1 - 1) with y by lia.
  destruct (Z.eqb_spec (y mod 4) 0), (Z.eqb_spec (y mod 100) 0),
    (Z.eqb_spec (y mod 400) 0); simpl; Z.div_mod_to_equations; lia.
Qed.

Lemma days_before_year_mono y1 y2 :
  y1 <= y2 -> _days_before_year y1 <= _days_before_year y2.
Proof. unfold _days_before_year. intros H. Z.div_mod_to_equations. lia. Qed.

Lemma day_of_year_bounds y m d :
  valid_date y m d ->
  1 <= _days_before_month y m + d <= 365 + Z_of_bool (_is_leap y).
Proof.
  unfold valid_date, _days_before_month, _days_in_month.
  intros [Hm Hd]. destruct (_is_leap y); month_cases m; eval_tables; lia.
Qed.

Lemma days_before_month_next y m1 m2 :
  1 <= m1 -> m1 < m2 <= 12 ->
  _days_before_month y m1 + _days_in_month y m1 <= _days_before_month y m2.
Proof.
  unfold _days_before_month, _days_in_month. intros H1 H2.
  destruct (_is_leap y); month_cases m1; month_cases m2; try lia;
    eval_tables; lia.
Qed.

(** [_ymd2ord] is strictly increasing in the order of dates. *)
Lemma ymd2ord_lt y1 m1 d1 y2 m2 d2 :
  valid_date y1 m1 d1 -> valid_date y2 m2 d2 ->
  lex_ltb [y1; m1; d1] [y2; m2; d2] = (_ymd2ord y1 m1 d1 <? _ymd2ord y2 m2 d2).
Proof.
  intros V1 V2. unfold _ymd2ord. simpl.
  pose proof (day_of_year_bounds _ _ _ V1) as B1.
  pose proof (day_of_year_bounds _ _ _ V2) as B2.
  destruct (Z.ltb_spec y1 y2) as [Hy|Hy]; simpl.
  { pose proof (days_before_year_succ y1).
    pose proof (days_before_year_mono (y1 + 1) y2 ltac:(lia)).
    symmetry. apply Z.ltb_lt. lia. }
  destruct (Z.eqb_spec y1 y2) as [->|Hne]; simpl.
  2:{ pose proof (days_before_year_succ y2).
      pose proof (days_before_year_mono (y2 + 1) y1 ltac:(lia)).
      symmetry. apply Z.ltb_ge. lia. }
  destruct V1 as [Hm1 Hd1], V2 as [Hm2 Hd2].
  destruct (Z.ltb_spec m1 m2) as [Hm|Hm]; simpl.
  { pose proof (days_before_month_next y2 m1 m2 ltac:(lia) ltac:(lia)).
    symmetry. apply Z.ltb_lt. lia. }
  destruct (Z.eqb_spec m1 m2) as [->|Hmne]; simpl.
  2:{ pose proof (days_before_month_next y2 m2 m1 ltac:(lia) ltac:(lia)).
      symmetry. apply Z.ltb_ge. lia. }
  rewrite ?andb_false_r, ?orb_false_r.
  destruct (Z.ltb_spec d1 d2); symmetry; [apply Z.ltb_lt | apply Z.ltb_ge]; lia.
Qed.

End Calendar.

Section Ordinals.

Import Datetime.

(** A year written by its position in the 400-, 100- and 4-year cycles. *)
Lemma cycles_year q400 q100 q4 q1 :
  0 <= q100 <= 3 -> 0 <= q4 <= 24 -> 0 <= q1 <= 3 ->
  let y := q400 * 400 + 1 + (q100 * 100 + q4 * 4 + q1) in
  _days_before_year y = q400 * 146097 + q100 * 36524 + q4 * 1461 + q1 * 365 /\
  _is_leap y = (q1 =? 3) && (negb (q4 =? 24) || (q100 =? 3)).
Proof.
  intros H100 H4 H1 y. subst y. split.
  - unfold _days_before_year. Z.div_mod_to_equations. lia.
  - unfold _is_leap.
    destruct (Z.eqb_spec q1 3), (Z.eqb_spec q4 24), (Z.eqb_spec q100 3); simpl;
      repeat match goal with
        | |- context [?a mod ?b =? 0] => destruct (Z.eqb_spec (a mod b) 0)
        end; simpl; try reflexivity; exfalso; Z.div_mod_to_equations; lia.
Qed.

(** The month and day that [_ord2ymd] reads off a day-of-year offset. *)
Lemma offset_month_day (leap : bool) (n : Z) :
  0 <= n < 365 ->
  let m0 := Z.shiftr (n + 50) 5 in
  let p0 := index _DAYS_BEFORE_MONTH m0 + Z_of_bool ((2 <? m0) && leap) in
  let m := if n <? p0 then m0 - 1 else m0 in
  let p := if n <? p0
           then p0 - (index _DAYS_IN_MONTH (m0 - 1) + Z_of_bool ((m0 - 1 =? 2) && leap))
           else p0 in
  1 <= m <= 12 /\
  p = index _DAYS_BEFORE_MONTH m + Z_of_bool ((2 <? m) && leap) /\
  1 <= n - p + 1 <= (if (m =? 2) && leap then 29 else index _DAYS_IN_MONTH m).
Proof.
  intros Hn m0 p0 m p. subst m p p0.
  assert (m0 = (n + 50) / 32) as Hm0.
  { subst m0. rewrite Z.shiftr_div_pow2 by lia. reflexivity. }
  clearbody m0.
  assert (1 <= m0 <= 12) as Hr by (subst m0; Z.div_mod_to_equations; lia).
  assert (32 * m0 - 50 <= n < 32 * m0 - 18) as Hb
    by (subst m0; Z.div_mod_to_equations; lia).
  clear Hm0.
  destruct leap; month_cases m0;
    match goal with
    | |- context [n <? ?k] => destruct (Z.ltb_spec n k)
    end; eval_tables; lia.
Qed.

Lemma ord2ymd_spec n :
  1 <= n ->
  let '(y, m, d) := _ord2ymd n in
  (1 <= m <= 12 /\ 1 <= d <= _days_in_month y m) /\
  _ymd2ord y m d = n /\
  1 <= y /\ (n <= _MAXORDINAL -> y <= 9999).
Proof.
  intros Hn. unfold _ord2ymd, _DI400Y, _DI100Y, _DI4Y.
  set (n0 := n - 1).
  set (q400 := n0 / 146097). set (r1 := n0 mod 146097).
  set (q100 := r1 / 36524). set (r2 := r1 mod 36524).
  set (q4 := r2 / 1461). set (r3 := r2 mod 1461).
  set (q1 := r3 / 365). set (r4 := r3 mod 365).
  assert (n0 = 146097 * q400 + r1 /\ 0 <= r1 < 146097) as [E1 B1]
    by (subst q400 r1; Z.div_mod_to_equations; lia).
  assert (r1 = 36524 * q100 + r2 /\ 0 <= r2 < 36524) as [E2 B2]
    by (subst q100 r2; Z.div_mod_to_equations; lia).
  assert (r2 = 1461 * q4 + r3 /\ 0 <= r3 < 1461) as [E3 B3]
    by (subst q4 r3; Z.div_mod_to_equations; lia).
  assert (r3 = 365 * q1 + r4 /\ 0 <= r4 < 365) as [E4 B4]
    by (subst q1 r4; Z.div_mod_to_equations; lia).
  assert (0 <= n0) as Hn0 by (subst n0; lia).
  assert (n = n0 + 1) as En by (subst n0; lia).
  clearbody n0 q400 r1 q100 r2 q4 r3 q1 r4.
  assert (0 <= q400) as Hq400 by lia.
  destruct ((q1 =? 4) || (q100 =? 4)) eqn:Hend.
  - (* the last day of a four-year or four-hundred-year cycle *)
    assert (exists k100 k4, 0 <= k100 <= 3 /\ 0 <= k4 <= 24 /\
              q400 * 400 + 1 + (q100 * 100 + q4 * 4 + q1) - 1
              = q400 * 400 + 1 + (k100 * 100 + k4 * 4 + 3) /\
              n0 = q400 * 146097 + k100 * 36524 + k4 * 1461 + 3 * 365 + 365 /\
              (k4 <> 24 \/ k100 = 3)) as (k100 & k4 & Hk100 & Hk4 & Ey & En0 & Hleap).
    { apply orb_true_iff in Hend as [H|H]; apply Z.eqb_eq in H.
      - exists q100, q4. lia.
      - exists 3, 24. lia. }
    rewrite Ey.
    destruct (cycles_year q400 k100 k4 3 Hk100 Hk4 ltac:(lia)) as [Hd Hl].
    cbv zeta in Hd, Hl. unfold _ymd2ord, _days_in_month, _days_before_month.
    rewrite Hd, Hl. eval_tables.
    assert (negb (k4 =? 24) || (k100 =? 3) = true) as ->.
    { destruct (Z.eqb_spec k4 24), (Z.eqb_spec k100 3); simpl; try reflexivity; lia. }
    simpl. unfold _MAXORDINAL. lia.
  - apply orb_false_iff in Hend as [H1 H100].
    apply Z.eqb_neq in H1, H100.
    assert (0 <= q100 <= 3) as Hk100 by lia.
    assert (0 <= q4 <= 24) as Hk4 by lia.
    assert (0 <= q1 <= 3) as Hk1 by lia.
    destruct (cycles_year q400 q100 q4 q1 Hk100 Hk4 Hk1) as [Hd Hl].
    cbv zeta in Hd, Hl.
    set (y := q400 * 400 + 1 + (q100 * 100 + q4 * 4 + q1)) in *.
    rewrite <- Hl.
    pose proof (offset_month_day (_is_leap y) r4 B4) as Hmd. cbv zeta in Hmd.
    set (m0 := Z.shiftr (r4 + 50) 5) in *.
    set (p0 := index _DAYS_BEFORE_MONTH m0 + Z_of_bool ((2 <? m0) && _is_leap y)) in *.
    unfold _ymd2ord, _days_in_month, _days_before_month.
    destruct (r4 <? p0); destruct Hmd as (Hm & Hp & Hday);
      (split; [split; [exact Hm | exact Hday]|]); rewrite <- Hp, Hd;
      unfold _MAXORDINAL; subst y; lia.
Qed.

End Ordinals.

Section Instants.

Import Datetime.

Lemma normalize_spec d s us :
  td_micros (normalize d s us) = (d * 86400 + s) * 1000000 + us /\
  0 <= seconds (normalize d s us) < 86400 /\
  0 <= microseconds (normalize d s us) < 1000000.
Proof. unfold td_micros, normalize. simpl. Z.div_mod_to_equations. lia. Qed.

Lemma td_neg_micros d : td_micros (td_neg d) = - td_micros d.
Proof.
  unfold td_neg. destruct (normalize_spec (- days d) (- seconds d) (- microseconds d))
    as [-> _]. unfold td_micros. lia.
Qed.

Lemma td_add_micros a b : td_micros (td_add a b) = td_micros a + td_micros b.
Proof.
  unfold td_add.
  destruct (normalize_spec (days a + days b) (seconds a + seconds b)
                           (microseconds a + microseconds b)) as [-> _].
  unfold td_micros. lia.
Qed.

Lemma timedelta_hours_micros h : td_micros (timedelta_hours h) = h * 3600000000.
Proof.
  unfold timedelta_hours. destruct (normalize_spec 0 (h * 3600) 0) as [-> _]. lia.
Qed.

Lemma timedelta_seconds_micros s : td_micros (timedelta_seconds s) = s * 1000000.
Proof.
  unfold timedelta_seconds. destruct (normalize_spec 0 s 0) as [-> _]. lia.
Qed.

Lemma valid_date_of t : valid t -> valid_date (year t) (month t) (day t).
Proof. unfold valid, valid_date. tauto. Qed.

Lemma toordinal_bounds t : valid t -> 1 <= toordinal t <= _MAXORDINAL.
Proof.
  intros V. pose proof (day_of_year_bounds _ _ _ (valid_date_of t V)) as B.
  destruct V as (Hy & _). unfold toordinal, _ymd2ord.
  pose proof (days_before_year_mono 1 (year t) ltac:(lia)) as H1.
  pose proof (days_before_year_succ (year t)) as H2.
  pose proof (days_before_year_mono (year t + 1) 10000 ltac:(lia)) as H3.
  change (_days_before_year 1) with 0 in H1.
  change (_days_before_year 10000) with 3652059 in H3.
  unfold _MAXORDINAL. lia.
Qed.

Lemma lex_step (B x y r1 r2 : Z) :
  0 <= r1 < B -> 0 <= r2 < B ->
  (x * B + r1 <? y * B + r2) = (x <? y) || ((x =? y) && (r1 <? r2)).
Proof.
  intros H1 H2.
  destruct (Z.ltb_spec x y), (Z.eqb_spec x y), (Z.ltb_spec r1 r2),
    (Z.ltb_spec (x * B + r1) (y * B + r2)); simpl; try reflexivity; nia.
Qed.

(** The time of day in microseconds, and its order. *)
Lemma time_of_day_lt h m s u h' m' s' u' :
  0 <= m < 60 -> 0 <= s < 60 -> 0 <= u < 1000000 ->
  0 <= m' < 60 -> 0 <= s' < 60 -> 0 <= u' < 1000000 ->
  lex_ltb [h; m; s; u] [h'; m'; s'; u']
  = (h * 3600000000 + ((m * 60 + s) * 1000000 + u)
     <? h' * 3600000000 + ((m' * 60 + s') * 1000000 + u')).
Proof.
  intros Hm Hs Hu Hm' Hs' Hu'.
  rewrite lex_step by lia.
  replace ((m * 60 + s) * 1000000 + u) with (m * 60000000 + (s * 1000000 + u)) by lia.
  replace ((m' * 60 + s') * 1000000 + u') with (m' * 60000000 + (s' * 1000000 + u'))
    by lia.
  rewrite lex_step by lia. rewrite lex_step by lia.
  cbn [lex_ltb]. by rewrite andb_false_r, orb_false_r.
Qed.

Lemma lex_ltb_app3 x1 x2 x3 y1 y2 y3 (a b : list Z) :
  lex_ltb (x1 :: x2 :: x3 :: a) (y1 :: y2 :: y3 :: b)
  = lex_ltb [x1; x2; x3] [y1; y2; y3]
    || ((x1 =? y1) && (x2 =? y2) && (x3 =? y3) && lex_ltb a b).
Proof.
  cbn [lex_ltb].
  destruct (x1 <? y1), (x1 =? y1), (x2 <? y2), (x2 =? y2), (x3 <? y3), (x3 =? y3);
    reflexivity.
Qed.

(** Two valid dates with the same ordinal are the same date. *)
Lemma ymd2ord_inj y1 m1 d1 y2 m2 d2 :
  valid_date y1 m1 d1 -> valid_date y2 m2 d2 ->
  ((y1 =? y2) && (m1 =? m2) && (d1 =? d2)) = (_ymd2ord y1 m1 d1 =? _ymd2ord y2 m2 d2).
Proof.
  intros V1 V2.
  pose proof (ymd2ord_lt _ _ _ _ _ _ V1 V2) as H12.
  pose proof (ymd2ord_lt _ _ _ _ _ _ V2 V1) as H21.
  cbn [lex_ltb] in H12, H21. rewrite ?andb_false_r, ?orb_false_r in H12, H21.
  destruct (Z.eqb_spec (_ymd2ord y1 m1 d1) (_ymd2ord y2 m2 d2)) as [E|E].
  - rewrite E, Z.ltb_irrefl in H12, H21.
    destruct (Z.ltb_spec y1 y2), (Z.ltb_spec y2 y1); try discriminate.
    assert (y1 = y2) as -> by lia. rewrite Z.eqb_refl in *. simpl in *.
    destruct (Z.ltb_spec m1 m2), (Z.ltb_spec m2 m1); try discriminate.
    assert (m1 = m2) as -> by lia. rewrite Z.eqb_refl in *. simpl in *.
    destruct (Z.ltb_spec d1 d2), (Z.ltb_spec d2 d1); try discriminate.
    assert (d1 = d2) as -> by lia. by rewrite Z.eqb_refl.
  - destruct (Z.eqb_spec y1 y2) as [->|]; [|done].
    destruct (Z.eqb_spec m1 m2) as [->|]; [|done].
    destruct (Z.eqb_spec d1 d2) as [->|]; [|done]. done.
Qed.

(** The order of date-times is the order of their instants. *)
Lemma dt_ltb_micros a b :
  valid a -> valid b -> dt_ltb a b = (micros a <? micros b).
Proof.
  intros Va Vb. unfold dt_ltb, fields. rewrite lex_ltb_app3.
  rewrite (ymd2ord_lt _ _ _ _ _ _ (valid_date_of a Va) (valid_date_of b Vb)).
  rewrite (ymd2ord_inj _ _ _ _ _ _ (valid_date_of a Va) (valid_date_of b Vb)).
  fold (toordinal a). fold (toordinal b).
  destruct Va as (_ & _ & _ & Hh & Hm & Hs & Hu).
  destruct Vb as (_ & _ & _ & Hh' & Hm' & Hs' & Hu').
  rewrite time_of_day_lt by assumption. rewrite <- (lex_step 86400000000) by lia.
  unfold micros. f_equal; lia.
Qed.

Lemma dt_add_spec t d t' :
  valid t -> dt_add t d = Some t' ->
  valid t' /\ micros t' = micros t + td_micros d.
Proof.
  intros V. unfold dt_add.
  set (base := normalize (toordinal t)
                 (hour t * 3600 + minute t * 60 + second t) (microsecond t)).
  set (delta := td_add base d).
  assert (td_micros delta = micros t + td_micros d) as Hmic.
  { subst delta base. rewrite td_add_micros.
    destruct (normalize_spec (toordinal t)
                (hour t * 3600 + minute t * 60 + second t) (microsecond t)) as [-> _].
    unfold micros. lia. }
  assert (0 <= seconds delta < 86400 /\ 0 <= microseconds delta < 1000000) as [Hs Hu].
  { subst delta. unfold td_add. apply normalize_spec. }
  clearbody delta. clear base.
  destruct ((0 <? days delta) && (days delta <=? _MAXORDINAL)) eqn:Hr; [|discriminate].
  apply andb_true_iff in Hr as [Hlo Hhi]. apply Z.ltb_lt in Hlo. apply Z.leb_le in Hhi.
  pose proof (ord2ymd_spec (days delta) ltac:(lia)) as Hymd.
  destruct (_ord2ymd (days delta)) as [[y m] dd].
  destruct Hymd as ((Hm & Hd) & Hord & Hy1 & Hy2).
  intros [= <-]. split.
  - unfold valid. cbn [year month day hour minute second microsecond].
    repeat split; try lia; Z.div_mod_to_equations; lia.
  - rewrite <- Hmic. unfold micros, toordinal, td_micros.
    cbn [year month day hour minute second microsecond]. rewrite Hord.
    Z.div_mod_to_equations. lia.
Qed.

Lemma dt_add_Some t d :
  valid t ->
  86400000000 <= micros t + td_micros d < (_MAXORDINAL + 1) * 86400000000 ->
  exists t', dt_add t d = Some t'.
Proof.
  intros V Hr. unfold dt_add.
  set (base := normalize (toordinal t)
                 (hour t * 3600 + minute t * 60 + second t) (microsecond t)).
  set (delta := td_add base d).
  assert (td_micros delta = micros t + td_micros d) as Hmic.
  { subst delta base. rewrite td_add_micros.
    destruct (normalize_spec (toordinal t)
                (hour t * 3600 + minute t * 60 + second t) (microsecond t)) as [-> _].
    unfold micros. lia. }
  assert (0 <= seconds delta < 86400 /\ 0 <= microseconds delta < 1000000) as [Hs Hu].
  { subst delta. unfold td_add. apply normalize_spec. }
  assert ((0 <? days delta) && (days delta <=? _MAXORDINAL) = true) as ->.
  { apply andb_true_iff. rewrite Z.ltb_lt, Z.leb_le. rewrite <- Hmic in Hr.
    unfold td_micros, _MAXORDINAL in *. lia. }
  destruct (_ord2ymd (days delta)) as [[y m] dd]. eauto.
Qed.

End Instants.

(** ** ISO-8601 strings sort like the instants they denote *)

Section IsoOrder.

Import Datetime.

Lemma digit_code v : N_of_ascii (digit v) = Z.to_N (48 + v mod 10).
Proof.
  unfold digit. apply N_ascii_embedding.
  assert (0 <= v mod 10 < 10) by (apply Z.mod_pos_bound; lia). lia.
Qed.

Lemma str_ltb_cons x (s t : string) : str_ltb (String x s) (String x t) = str_ltb s t.
Proof. simpl. by rewrite N.ltb_irrefl, N.eqb_refl. Qed.

Lemma str_ltb_digit a b (s t : string) :
  str_ltb (String (digit a) s) (String (digit b) t)
  = (a mod 10 <? b mod 10) || ((a mod 10 =? b mod 10) && str_ltb s t).
Proof.
  simpl. rewrite !digit_code.
  assert (0 <= a mod 10 < 10) by (apply Z.mod_pos_bound; lia).
  assert (0 <= b mod 10 < 10) by (apply Z.mod_pos_bound; lia).
  f_equal; [|f_equal].
  - destruct (N.ltb_spec (Z.to_N (48 + a mod 10)) (Z.to_N (48 + b mod 10))),
      (Z.ltb_spec (a mod 10) (b mod 10)); try reflexivity; lia.
  - destruct (N.eqb_spec (Z.to_N (48 + a mod 10)) (Z.to_N (48 + b mod 10))),
      (Z.eqb_spec (a mod 10) (b mod 10)); try reflexivity; lia.
Qed.

Lemma mod_pow10_succ a (w : nat) :
  a mod 10 ^ Z.of_nat (S w)
  = (a / 10 ^ Z.of_nat w) mod 10 * 10 ^ Z.of_nat w + a mod 10 ^ Z.of_nat w.
Proof.
  assert (0 < 10 ^ Z.of_nat w) as Hp by (apply Z.pow_pos_nonneg; lia).
  rewrite Nat2Z.inj_succ, Z.pow_succ_r by lia.
  rewrite (Z.mul_comm 10), Z.rem_mul_r by lia. lia.
Qed.

(** Zero-padded numbers of the same width compare as the numbers do. *)
Lemma str_ltb_zpad (w : nat) a b (s t : string) :
  str_ltb (zpad w a +:+ s) (zpad w b +:+ t)
  = (a mod 10 ^ Z.of_nat w <? b mod 10 ^ Z.of_nat w)
    || ((a mod 10 ^ Z.of_nat w =? b mod 10 ^ Z.of_nat w) && str_ltb s t).
Proof.
  induction w as [|w IH].
  - simpl. by rewrite !Z.mod_1_r.
  - cbn [zpad].
    change (String ?x ?r +:+ ?u) with (String x (r +:+ u)).
    rewrite str_ltb_digit, IH, !mod_pow10_succ.
    assert (0 < 10 ^ Z.of_nat w) as Hp by (apply Z.pow_pos_nonneg; lia).
    pose proof (Z.mod_pos_bound a _ Hp) as Ha.
    pose proof (Z.mod_pos_bound b _ Hp) as Hb.
    rewrite lex_step by assumption.
    set (P := 10 ^ Z.of_nat w) in *.
    set (ra := a mod P) in *. set (rb := b mod P) in *.
    set (da := (a / P) mod 10) in *. set (db := (b / P) mod 10) in *.
    clearbody ra rb da db P. clear IH.
    destruct (Z.ltb_spec da db), (Z.eqb_spec da db), (Z.ltb_spec ra rb),
      (Z.eqb_spec ra rb), (Z.eqb_spec (da * P + ra) (db * P + rb));
      simpl; try reflexivity; exfalso; try lia; nia.
Qed.

Lemma str_ltb_zpad_small (w : nat) a b (s t : string) :
  0 <= a < 10 ^ Z.of_nat w -> 0 <= b < 10 ^ Z.of_nat w ->
  str_ltb (zpad w a +:+ s) (zpad w b +:+ t)
  = (a <? b) || ((a =? b) && str_ltb s t).
Proof. intros Ha Hb. by rewrite str_ltb_zpad, !Z.mod_small. Qed.

Lemma append_empty_r (s : string) : s +:+ "" = s.
Proof.
  induction s as [|c s IH]; [done|].
  change (String c (s +:+ "") = String c s). by rewrite IH.
Qed.

(** The optional fraction. *)
Lemma str_ltb_fraction u v :
  0 <= u < 1000000 -> 0 <= v < 1000000 ->
  str_ltb (if u =? 0 then "" else "." +:+ zpad 6 u)
          (if v =? 0 then "" else "." +:+ zpad 6 v)
  = (u <? v).
Proof.
  intros Hu Hv.
  destruct (Z.eqb_spec u 0) as [->|Hu0], (Z.eqb_spec v 0) as [->|Hv0].
  - reflexivity.
  - simpl. symmetry. apply Z.ltb_lt. lia.
  - simpl. symmetry. apply Z.ltb_ge. lia.
  - change ("." +:+ zpad 6 u) with (String "." (zpad 6 u)).
    change ("." +:+ zpad 6 v) with (String "." (zpad 6 v)).
    rewrite str_ltb_cons.
    pose proof (str_ltb_zpad_small 6 u v "" "") as H.
    rewrite !append_empty_r in H.
    rewrite H by (simpl; lia). simpl. by rewrite andb_false_r, orb_false_r.
Qed.

Lemma days_in_month_le y m : _days_in_month y m <= 31 \/ ¬ (1 <= m <= 12).
Proof.
  destruct (decide (1 <= m <= 12)) as [Hm|]; [left | by right].
  unfold _days_in_month. destruct (_is_leap y);
    assert (m = 1 \/ m = 2 \/ m = 3 \/ m = 4 \/ m = 5 \/ m = 6 \/ m = 7 \/ m = 8 \/
            m = 9 \/ m = 10 \/ m = 11 \/ m = 12) as H by lia;
    repeat (destruct H as [H|H]; [subst m; vm_compute; discriminate|]);
    subst m; vm_compute; discriminate.
Qed.

(** The strings [isoformat] prints compare, byte by byte, as the
    date-times compare. *)
Lemma isoformat_ltb a b :
  valid a -> valid b -> str_ltb (isoformat a) (isoformat b) = dt_ltb a b.
Proof.
  intros (Hy & Hm & Hd & Hh & Hmi & Hs & Hu) (Hy' & Hm' & Hd' & Hh' & Hmi' & Hs' & Hu').
  destruct (days_in_month_le (year a) (month a)) as [Ha|]; [|tauto].
  destruct (days_in_month_le (year b) (month b)) as [Hb|]; [|tauto].
  unfold isoformat, dt_ltb, fields. cbn [lex_ltb].
  rewrite (str_ltb_zpad_small 4) by (simpl; lia).
  change ("-" +:+ ?s) with (String "-" s). rewrite str_ltb_cons.
  rewrite (str_ltb_zpad_small 2) by (simpl; lia).
  change ("-" +:+ ?s) with (String "-" s). rewrite str_ltb_cons.
  rewrite (str_ltb_zpad_small 2) by (simpl; lia).
  change ("T" +:+ ?s) with (String "T" s). rewrite str_ltb_cons.
  rewrite (str_ltb_zpad_small 2) by (simpl; lia).
  change (":" +:+ ?s) with (String ":" s). rewrite str_ltb_cons.
  rewrite (str_ltb_zpad_small 2) by (simpl; lia).
  change (":" +:+ ?s) with (String ":" s). rewrite str_ltb_cons.
  rewrite (str_ltb_zpad_small 2) by (simpl; lia).
  rewrite str_ltb_fraction by assumption.
  by rewrite andb_false_r, orb_false_r.
Qed.

End IsoOrder.

(** ** Lists *)

Section Lists.

Lemma NoDup_fmap_filter {A B} (f : A -> B) (P : A -> Prop)
      `{!forall x, Decision (P x)} (l : list A) :
  NoDup (f <$> l) -> NoDup (f <$> filter P l).
Proof.
  induction l as [|x l IH]; [done|]. rewrite fmap_cons, NoDup_cons.
  intros [Hx Hl]. rewrite filter_cons. case_decide; [|auto].
  rewrite fmap_cons, NoDup_cons. split; [|auto].
  intros Hin. apply Hx. apply list_elem_of_fmap in Hin as (y & -> & Hy).
  apply list_elem_of_filter in Hy as [_ Hy]. by apply list_elem_of_fmap_2.
Qed.

Lemma NoDup_fmap_elem_eq {A B} (f : A -> B) (l : list A) x y :
  NoDup (f <$> l) -> x ∈ l -> y ∈ l -> f x = f y -> x = y.
Proof.
  induction l as [|z l IH]; intros Hnd Hx Hy E; [inversion Hx|].
  rewrite fmap_cons, NoDup_cons in Hnd. destruct Hnd as [Hz Hnd].
  apply elem_of_cons in Hx as [->|Hx]; apply elem_of_cons in Hy as [->|Hy].
  - done.
  - exfalso. apply Hz. rewrite E. by apply list_elem_of_fmap_2.
  - exfalso. apply Hz. rewrite <- E. by apply list_elem_of_fmap_2.
  - by apply IH.
Qed.

Lemma filter_ext_elem {A} (P Q : A -> Prop) `{!forall x, Decision (P x)}
      `{!forall x, Decision (Q x)} (l : list A) :
  (forall x, x ∈ l -> P x <-> Q x) -> filter P l = filter Q l.
Proof.
  induction l as [|x l IH]; intros Hext; [done|].
  rewrite !filter_cons.
  assert (filter P l = filter Q l) as -> by (apply IH; intros; apply Hext; by right).
  assert (P x <-> Q x) as Hx by (apply Hext; left).
  destruct (decide (P x)), (decide (Q x)); tauto.
Qed.

Lemma filter_all {A} (P : A -> Prop) `{!forall x, Decision (P x)} (l : list A) :
  (forall x, x ∈ l -> P x) -> filter P l = l.
Proof.
  induction l as [|x l IH]; intros Hall; [done|].
  rewrite filter_cons_True by (apply Hall; left).
  f_equal. apply IH. intros; apply Hall; by right.
Qed.

Lemma filter_none {A} (P : A -> Prop) `{!forall x, Decision (P x)} (l : list A) :
  (forall x, x ∈ l -> ¬ P x) -> filter P l = [].
Proof.
  induction l as [|x l IH]; intros Hnone; [done|].
  rewrite filter_cons_False by (apply Hnone; left).
  apply IH. intros; apply Hnone; by right.
Qed.

Lemma filter_split_length {A} (P : A -> Prop) `{!forall x, Decision (P x)}
      (l : list A) :
  (length (filter P l) + length (filter (fun x => ¬ P x) l) = length l)%nat.
Proof.
  induction l as [|x l IH]; [done|].
  rewrite !filter_cons. destruct (decide (P x)), (decide (¬ P x)); simpl; try tauto; lia.
Qed.

End Lists.

(** ** The index as a list of rows *)

Section Index.

Implicit Types (d : list ContentObject) (r : ContentObject) (c : string).

Lemma find_cid_Some c d r : find_cid c d = Some r -> r ∈ d /\ cid r = c.
Proof.
  induction d as [|x d IH]; simpl; [discriminate|].
  destruct (String.eqb_spec (cid x) c) as [E|E].
  - intros [= <-]. split; [left | exact E].
  - intros H. destruct (IH H) as [Hin Hc]. split; [by right | exact Hc].
Qed.

Lemma find_cid_None c d : find_cid c d = None <-> forall r, r ∈ d -> cid r ≠ c.
Proof.
  induction d as [|x d IH]; simpl.
  - split; [intros _ r Hr; inversion Hr | done].
  - destruct (String.eqb_spec (cid x) c) as [E|E].
    + split; [discriminate|]. intros H. exfalso. apply (H x); [left | exact E].
    + rewrite IH. split.
      * intros H r Hr. apply elem_of_cons in Hr as [->|Hr]; auto.
      * intros H r Hr. apply H. by right.
Qed.

(** Under the primary key, a row of the table is the one its [cid] finds. *)
Lemma find_cid_elem d r : NoDup (cid <$> d) -> r ∈ d -> find_cid (cid r) d = Some r.
Proof.
  induction d as [|x d IH]; simpl; intros Hnd Hr; [inversion Hr|].
  apply NoDup_cons in Hnd as [Hx Hnd].
  apply elem_of_cons in Hr as [->|Hr].
  - by rewrite String.eqb_refl.
  - destruct (String.eqb_spec (cid x) (cid r)) as [E|E]; [|auto].
    exfalso. apply Hx. rewrite E. apply list_elem_of_fmap. eauto.
Qed.

Lemma find_cid_filter_ne c c' d :
  c' ≠ c -> find_cid c' (filter (fun r => cid r ≠ c) d) = find_cid c' d.
Proof.
  intros Hne. induction d as [|x d IH]; [done|].
  rewrite filter_cons. simpl. case_decide as Hx; simpl.
  - destruct (String.eqb (cid x) c'); [done | exact IH].
  - destruct (String.eqb_spec (cid x) c') as [E|E]; [congruence | exact IH].
Qed.

Lemma find_cid_filter_eq c d : find_cid c (filter (fun r => cid r ≠ c) d) = None.
Proof.
  apply find_cid_None. intros r Hr. by apply list_elem_of_filter in Hr as [? _].
Qed.

Lemma find_cid_update_eq c v d r :
  find_cid c d = Some r ->
  find_cid c ((fun r => if String.eqb (cid r) c then with_pinned v r else r) <$> d)
  = Some (with_pinned v r).
Proof.
  induction d as [|x d IH]; simpl; [discriminate|].
  destruct (String.eqb_spec (cid x) c) as [E|E]; simpl.
  - intros [= <-]. destruct (String.eqb_spec (cid x) c); [done | contradiction].
  - destruct (String.eqb_spec (cid x) c); [contradiction | exact IH].
Qed.

Lemma find_cid_update_ne c c' v d :
  c' ≠ c ->
  find_cid c' ((fun r => if String.eqb (cid r) c then with_pinned v r else r) <$> d)
  = find_cid c' d.
Proof.
  intros Hne. induction d as [|x d IH]; [done|]. simpl.
  destruct (String.eqb_spec (cid x) c) as [E|E]; simpl.
  - destruct (String.eqb_spec (cid x) c') as [E'|E']; [congruence | exact IH].
  - destruct (String.eqb (cid x) c'); [done | exact IH].
Qed.

End Index.

(** ** Pin and unpin *)

Section Retention.

(** C10.  [pin] and [unpin] on a known id return [True] and change
    nothing but the [pinned] flag of the rows with that id: the other
    fields of that row, every other row, the row order, every file and
    the output are as before.  On an unknown id they return [False] and
    leave the state as it is. *)
Theorem pin_unpin_frame (c : string) (v : bool) (w : World) :
  let res := if v then pin c w else unpin c w in
  match get w c with
  | None => res = (false, w)
  | Some r0 =>
      res.1 = true /\
      fs res.2 = fs w /\ stdout res.2 = stdout w /\
      length (db res.2) = length (db w) /\
      (forall i r, db w !! i = Some r ->
         exists r', db res.2 !! i = Some r' /\
           cid r' = cid r /\ name r' = name r /\ size_bytes r' = size_bytes r /\
           mime_type r' = mime_type r /\ uploaded_at r' = uploaded_at r /\
           local_path r' = local_path r /\
           (cid r = c -> pinned r' = v) /\ (cid r ≠ c -> r' = r)) /\
      (exists r1, get res.2 c = Some r1 /\ pinned r1 = v /\
         name r1 = name r0 /\ size_bytes r1 = size_bytes r0 /\
         mime_type r1 = mime_type r0 /\ uploaded_at r1 = uploaded_at r0 /\
         local_path r1 = local_path r0) /\
      (forall c', c' ≠ c -> get res.2 c' = get w c')
  end.
Proof.
  intros res.
  assert (Hres : res = match get w c with
                       | None => (false, w)
                       | Some _ => (true, update_pinned c v w)
                       end).
  { subst res. unfold pin, unpin. by destruct v, (get w c). }
  destruct (get w c) as [r0|] eqn:Hget; [|exact Hres].
  rewrite Hres. simpl. repeat split.
  - by rewrite length_fmap.
  - intros i r Hi.
    exists (if String.eqb (cid r) c then with_pinned v r else r).
    split; [by rewrite list_lookup_fmap, Hi|].
    destruct (String.eqb_spec (cid r) c) as [E|E]; simpl; repeat split; try done.
  - exists (with_pinned v r0). split; [|done].
    unfold get. simpl. by apply find_cid_update_eq.
  - intros c' Hc'. unfold get. simpl. by apply find_cid_update_ne.
Qed.

End Retention.

(** ** Adding content *)

Section Adding.

Variable home : string.
Variable json_dumps : json -> list byte.

(** C9.  When the source path does not exist, [add_file] raises
    [FileNotFoundError] and the state it leaves is the state it found:
    no file and no row has been written. *)
Theorem add_file_missing_source (path : string) (now : Datetime.datetime)
        (w : World) :
  fs w !! path = None ->
  exists msg, add_file home path now w = (Raise (FileNotFoundError msg), w).
Proof. intros H. unfold add_file. rewrite H. eauto. Qed.

Lemma find_cid_app c (d1 d2 : list ContentObject) :
  find_cid c (d1 ++ d2)
  = match find_cid c d1 with Some r => Some r | None => find_cid c d2 end.
Proof.
  induction d1 as [|x d1 IH]; [done|]. simpl.
  destruct (String.eqb (cid x) c); [done | exact IH].
Qed.


Lemma store_metadata_get_other obj w c :
  c ≠ cid obj ->
  (forall r, r ∈ db w -> local_path r = local_path obj -> cid r = cid obj) ->
  get (_store_metadata obj w) c = get w c.
Proof.
  intros Hc Hl. unfold get, _store_metadata. simpl. rewrite find_cid_app. simpl.
  destruct (String.eqb_spec (cid obj) c) as [E|_]; [congruence|].
  assert (find_cid c (filter (fun r => cid r ≠ cid obj /\ local_path r ≠ local_path obj)
                             (db w)) = find_cid c (db w)) as ->;
    [|by destruct (find_cid c (db w))].
  induction (db w) as [|x d IH]; [done|]. rewrite filter_cons. simpl.
  assert (forall r, r ∈ d -> local_path r = local_path obj -> cid r = cid obj) as Hd.
  { intros r Hr. apply Hl. by right. }
  destruct (String.eqb_spec (cid x) c) as [E|E].
  - rewrite decide_True; [simpl; by rewrite E, String.eqb_refl|].
    split; [congruence|]. intros El. apply Hc. rewrite <- E.
    apply Hl; [left | exact El].
  - case_decide; simpl; [|by apply IH].
    destruct (String.eqb_spec (cid x) c); [done | by apply IH].
Qed.

Lemma add_file_ok path now w data :
  fs w !! path = Some data ->
  path ≠ path_join (STORE_DIR home) (_compute_cid data) ->
  let lp := path_join (STORE_DIR home) (_compute_cid data) in
  let obj := mk_object (_compute_cid data) (path_name path) (Z.of_nat (length data))
                       (guess_mime (path_suffix path)) false
                       (Datetime.isoformat now) lp in
  add_file home path now w
  = (Ok obj, _store_metadata obj (set_fs (<[lp := data]> (fs w)) w)).
Proof.
  intros Hf Hp. unfold add_file. rewrite Hf.
  destruct (String.eqb_spec path (path_join (STORE_DIR home) (_compute_cid data)));
    [contradiction | reflexivity].
Qed.

Lemma add_file_Ok_inv path now w o w' :
  add_file home path now w = (Ok o, w') ->
  exists data, fs w !! path = Some data /\ cid o = _compute_cid data /\
    local_path o = path_join (STORE_DIR home) (cid o) /\
    path ≠ local_path o /\
    w' = _store_metadata o (set_fs (<[local_path o := data]> (fs w)) w).
Proof.
  unfold add_file. destruct (fs w !! path) as [data|]; [|discriminate].
  destruct (String.eqb_spec path (path_join (STORE_DIR home) (_compute_cid data)));
    [discriminate|].
  intros [= <- <-]. exists data. simpl. done.
Qed.


End Adding.


(** ** Export *)

Section Exporting.

Variable json_dumps : json -> list byte.





End Exporting.

(** ** The garbage-collection sweep *)

Section Sweep.

Implicit Types (w : World) (rows : list (string * string)) (r : ContentObject).

Lemma gc_sweep_cons row rows w :
  gc_sweep (row :: rows) w = gc_sweep rows (gc_item w row).
Proof. reflexivity. Qed.

(** *** Files *)

Lemma gc_item_fs_other w c lp p :
  p ≠ lp -> fs (gc_item w (c, lp)) !! p = fs w !! p.
Proof.
  intros Hp. unfold gc_item. destruct (fs w !! lp); simpl; [|done].
  by rewrite lookup_delete_ne.
Qed.

Lemma gc_item_fs_None w row p :
  fs w !! p = None -> fs (gc_item w row) !! p = None.
Proof.
  destruct row as [c lp]. intros Hp. unfold gc_item.
  destruct (fs w !! lp); simpl; [|done].
  rewrite lookup_delete. by case_decide.
Qed.

Lemma gc_item_fs_gone w c lp : fs (gc_item w (c, lp)) !! lp = None.
Proof.
  unfold gc_item. destruct (fs w !! lp) eqn:E; simpl; [|done].
  by rewrite lookup_delete_eq.
Qed.

Lemma gc_sweep_fs_None rows w p :
  fs w !! p = None -> fs (gc_sweep rows w) !! p = None.
Proof.
  revert w. induction rows as [|row rows IH]; intros w Hp; [done|].
  rewrite gc_sweep_cons. apply IH. by apply gc_item_fs_None.
Qed.

Lemma gc_sweep_fs_other rows w p :
  p ∉ rows.*2 -> fs (gc_sweep rows w) !! p = fs w !! p.
Proof.
  revert w. induction rows as [|[c lp] rows IH]; intros w Hp; [done|].
  rewrite fmap_cons, not_elem_of_cons in Hp. destruct Hp as [Hne Hp].
  rewrite gc_sweep_cons, IH by done. by apply gc_item_fs_other.
Qed.

Lemma gc_sweep_fs_gone rows w p :
  p ∈ rows.*2 -> fs (gc_sweep rows w) !! p = None.
Proof.
  revert w. induction rows as [|[c lp] rows IH]; intros w Hp; [inversion Hp|].
  rewrite fmap_cons, elem_of_cons in Hp. rewrite gc_sweep_cons.
  destruct (decide (p = lp)) as [->|Hne].
  - apply gc_sweep_fs_None, gc_item_fs_gone.
  - destruct Hp as [?|Hp]; [done|]. by apply IH.
Qed.

(** *** Rows *)

Lemma gc_item_db_sub w row r : r ∈ db (gc_item w row) -> r ∈ db w.
Proof.
  destruct row as [c lp]. unfold gc_item. destruct (fs w !! lp); simpl; [|done].
  intros H. by apply list_elem_of_filter in H as [_ H].
Qed.

Lemma gc_item_db_keep w c lp r :
  r ∈ db w -> cid r ≠ c -> r ∈ db (gc_item w (c, lp)).
Proof.
  intros Hr Hc. unfold gc_item. destruct (fs w !! lp); simpl; [|done].
  by apply list_elem_of_filter.
Qed.

Lemma gc_item_find_keep w c lp c' :
  c' ≠ c -> find_cid c' (db (gc_item w (c, lp))) = find_cid c' (db w).
Proof.
  intros Hc. unfold gc_item. destruct (fs w !! lp); simpl; [|done].
  by apply find_cid_filter_ne.
Qed.

Lemma gc_sweep_db_sub rows w r : r ∈ db (gc_sweep rows w) -> r ∈ db w.
Proof.
  revert w. induction rows as [|row rows IH]; intros w Hr; [done|].
  rewrite gc_sweep_cons in Hr. eapply gc_item_db_sub, IH, Hr.
Qed.

Lemma gc_sweep_db_keep rows w r :
  r ∈ db w -> cid r ∉ rows.*1 -> r ∈ db (gc_sweep rows w).
Proof.
  revert w. induction rows as [|[c lp] rows IH]; intros w Hr Hc; [done|].
  rewrite fmap_cons, not_elem_of_cons in Hc. destruct Hc as [Hne Hc].
  rewrite gc_sweep_cons. apply IH; [|done]. by apply gc_item_db_keep.
Qed.

Lemma gc_sweep_find_keep rows w c :
  c ∉ rows.*1 -> find_cid c (db (gc_sweep rows w)) = find_cid c (db w).
Proof.
  revert w. induction rows as [|[c0 lp] rows IH]; intros w Hc; [done|].
  rewrite fmap_cons, not_elem_of_cons in Hc. destruct Hc as [Hne Hc].
  rewrite gc_sweep_cons, IH by done. by apply gc_item_find_keep.
Qed.

Lemma gc_sweep_find_None rows w c :
  find_cid c (db w) = None -> find_cid c (db (gc_sweep rows w)) = None.
Proof.
  rewrite !find_cid_None. intros H r Hr. eapply H, gc_sweep_db_sub, Hr.
Qed.

(** A row whose file is there when the sweep starts is deleted, file
    first, under the unique [local_path]. *)
Lemma gc_sweep_removed rows w c lp :
  (c, lp) ∈ rows -> NoDup rows.*2 -> is_Some (fs w !! lp) ->
  find_cid c (db (gc_sweep rows w)) = None.
Proof.
  revert w. induction rows as [|[c0 lp0] rows IH]; intros w Hin Hnd Hf;
    [inversion Hin|].
  rewrite fmap_cons, NoDup_cons in Hnd. destruct Hnd as [Hlp0 Hnd].
  rewrite gc_sweep_cons. apply elem_of_cons in Hin as [[= <- <-]|Hin].
  - apply gc_sweep_find_None. unfold gc_item. destruct Hf as [x ->]. simpl.
    apply find_cid_filter_eq.
  - apply IH; [done..|]. rewrite gc_item_fs_other; [done|].
    intros ->. apply Hlp0. by apply (list_elem_of_fmap_2 snd) in Hin.
Qed.

(** A row whose file is already missing survives the sweep, under the
    primary key. *)
Lemma gc_sweep_failed rows w c lp r :
  (c, lp) ∈ rows -> NoDup rows.*1 -> fs w !! lp = None ->
  r ∈ db w -> cid r = c -> r ∈ db (gc_sweep rows w).
Proof.
  revert w. induction rows as [|[c0 lp0] rows IH]; intros w Hin Hnd Hf Hr Hc;
    [inversion Hin|].
  rewrite fmap_cons, NoDup_cons in Hnd. destruct Hnd as [Hc0 Hnd].
  rewrite gc_sweep_cons. apply elem_of_cons in Hin as [[= <- <-]|Hin].
  - apply gc_sweep_db_keep; [|by rewrite Hc].
    unfold gc_item. by rewrite Hf.
  - apply (IH _ Hin Hnd); [by apply gc_item_fs_None| |done].
    apply gc_item_db_keep; [done|]. intros E. apply Hc0. rewrite <- E, Hc.
    by apply (list_elem_of_fmap_2 fst) in Hin.
Qed.

(** *** The selection *)

Lemma gc_select_elem cutoff d c lp :
  (c, lp) ∈ gc_select cutoff d
  <-> exists r, r ∈ d /\ gc_eligible cutoff r = true /\ cid r = c /\ local_path r = lp.
Proof.
  unfold gc_select. rewrite list_elem_of_fmap. split.
  - intros (r & [= -> ->] & Hr). apply list_elem_of_filter in Hr as [? ?]. eauto.
  - intros (r & Hr & He & <- & <-). exists r. split; [done|].
    by apply list_elem_of_filter.
Qed.

Lemma gc_select_fst cutoff d :
  (gc_select cutoff d).*1 = cid <$> filter (fun r => gc_eligible cutoff r = true) d.
Proof. unfold gc_select. rewrite <- list_fmap_compose. done. Qed.

Lemma gc_select_snd cutoff d :
  (gc_select cutoff d).*2
  = local_path <$> filter (fun r => gc_eligible cutoff r = true) d.
Proof. unfold gc_select. rewrite <- list_fmap_compose. done. Qed.

Lemma gc_select_NoDup cutoff d :
  schema_ok d ->
  NoDup (gc_select cutoff d).*1 /\ NoDup (gc_select cutoff d).*2.
Proof.
  intros [H1 H2]. rewrite gc_select_fst, gc_select_snd.
  split; by apply NoDup_fmap_filter.
Qed.

Lemma gc_select_length cutoff d :
  length (gc_select cutoff d)
  = length (filter (fun r => gc_eligible cutoff r = true) d).
Proof. unfold gc_select. by rewrite length_fmap. Qed.

End Sweep.

(** ** Garbage collection *)

Section Collection.

Implicit Types (w : World) (r : ContentObject).

Lemma gc_unfold now cutoff w :
  Datetime.dt_sub now (Datetime.timedelta_hours 24) = Some cutoff ->
  gc now w
  = (Ok (Z.of_nat (length (gc_select (Datetime.isoformat cutoff) (db w)))),
     gc_sweep (gc_select (Datetime.isoformat cutoff) (db w)) w).
Proof. intros H. unfold gc. by rewrite H. Qed.

Lemma gc_world now w :
  (gc now w).2 = w \/
  exists cutoff, (gc now w).2 = gc_sweep (gc_select cutoff (db w)) w.
Proof.
  unfold gc. destruct (Datetime.dt_sub _ _); simpl; [right|left]; eauto.
Qed.

(** The sweep leaves alone every row the query did not select. *)
Lemma gc_sweep_not_selected cutoff w r :
  schema_ok (db w) -> r ∈ db w -> gc_eligible cutoff r = false ->
  let w' := gc_sweep (gc_select cutoff (db w)) w in
  find_cid (cid r) (db w') = Some r /\
  fs w' !! local_path r = fs w !! local_path r.
Proof.
  intros [Hc Hl] Hr He. split.
  - rewrite gc_sweep_find_keep; [by apply find_cid_elem|].
    rewrite gc_select_fst. intros Hin.
    apply list_elem_of_fmap in Hin as (r' & E & Hr').
    apply list_elem_of_filter in Hr' as [He' Hr'].
    assert (r = r') by (by apply (NoDup_fmap_elem_eq cid (db w))). congruence.
  - apply gc_sweep_fs_other. rewrite gc_select_snd. intros Hin.
    apply list_elem_of_fmap in Hin as (r' & E & Hr').
    apply list_elem_of_filter in Hr' as [He' Hr'].
    assert (r = r') by (by apply (NoDup_fmap_elem_eq local_path (db w))). congruence.
Qed.

(** A selected row whose blob is in place loses the blob and the row. *)
Lemma gc_sweep_selected_present cutoff w r :
  schema_ok (db w) -> r ∈ db w -> gc_eligible cutoff r = true ->
  is_Some (fs w !! local_path r) ->
  let w' := gc_sweep (gc_select cutoff (db w)) w in
  find_cid (cid r) (db w') = None /\ fs w' !! local_path r = None.
Proof.
  intros Hs Hr He Hf. destruct (gc_select_NoDup cutoff _ Hs) as [_ Hnd].
  assert ((cid r, local_path r) ∈ gc_select cutoff (db w)) as Hin.
  { apply gc_select_elem. eauto. }
  split.
  - by eapply gc_sweep_removed.
  - apply gc_sweep_fs_gone. by apply (list_elem_of_fmap_2 snd) in Hin.
Qed.

(** A selected row whose blob is missing keeps its row. *)
Lemma gc_sweep_selected_missing cutoff w r :
  schema_ok (db w) -> r ∈ db w -> gc_eligible cutoff r = true ->
  fs w !! local_path r = None ->
  let w' := gc_sweep (gc_select cutoff (db w)) w in
  r ∈ db w' /\ find_cid (cid r) (db w') = Some r.
Proof.
  intros Hs Hr He Hf w'. destruct (gc_select_NoDup cutoff _ Hs) as [Hnd _].
  assert ((cid r, local_path r) ∈ gc_select cutoff (db w)) as Hin.
  { apply gc_select_elem. eauto. }
  assert (r ∈ db w') as Hr' by (by eapply gc_sweep_failed).
  split; [done|]. apply find_cid_elem; [|done].
  destruct Hs as [Hc _]. clear -Hc.
  assert (forall rows w0, NoDup (cid <$> db w0) -> NoDup (cid <$> db (gc_sweep rows w0))) as H.
  { induction rows as [|[c lp] rows IH]; intros w0 H0; [done|].
    rewrite gc_sweep_cons. apply IH. unfold gc_item.
    destruct (fs w0 !! lp); simpl; [|done]. by apply NoDup_fmap_filter. }
  by apply H.
Qed.

(** C3.  A pinned row is never selected, whatever its [uploaded_at]:
    after any sweep (at any clock value) [get] still returns the very
    same row, and the file at its [local_path] is as it was. *)
Theorem gc_pin_immunity (now : Datetime.datetime) (w : World) (r : ContentObject) :
  schema_ok (db w) -> r ∈ db w -> pinned r = true ->
  get (gc now w).2 (cid r) = Some r /\
  r ∈ db (gc now w).2 /\
  fs (gc now w).2 !! local_path r = fs w !! local_path r.
Proof.
  intros Hs Hr Hp. unfold get.
  destruct (gc_world now w) as [->|[cutoff ->]].
  - split; [|done]. apply find_cid_elem; [apply Hs | done].
  - assert (gc_eligible cutoff r = false) as He.
    { unfold gc_eligible. by rewrite Hp. }
    destruct (gc_sweep_not_selected cutoff w r Hs Hr He) as [H1 H2].
    split; [done|]. split; [|done]. by apply find_cid_Some in H1 as [? _].
Qed.

Lemma gc_pin_immunity_witness :
  get (gc Sample.later Sample.stocked).2 "QmKept" = Some Sample.kept_row /\
  Sample.kept_row ∈ db (gc Sample.later Sample.stocked).2 /\
  fs (gc Sample.later Sample.stocked).2 !! Sample.blob_path "QmKept"
  = fs Sample.stocked !! Sample.blob_path "QmKept".
Proof.
  apply (gc_pin_immunity Sample.later Sample.stocked Sample.kept_row).
  - split; by_compute.
  - by_compute.
  - reflexivity.
Defined.

End Collection.

(** ** What a sweep returns and what it reclaims *)

Section Counting.

Implicit Types (w : World) (rows : list (string * string)) (r : ContentObject).

Lemma gc_sweep_db rows w :
  NoDup rows.*2 ->
  db (gc_sweep rows w) = filter (fun r => cid r ∉ (unlinked w rows).*1) (db w).
Proof.
  revert w. induction rows as [|[c lp] rows IH]; intros w Hnd.
  - simpl. symmetry. apply filter_all. intros r _ H. inversion H.
  - rewrite fmap_cons, NoDup_cons in Hnd. destruct Hnd as [Hlp Hnd].
    rewrite gc_sweep_cons, IH by done.
    assert (unlinked w ((c, lp) :: rows)
            = if decide (is_Some (fs w !! lp)) then (c, lp) :: unlinked w rows
              else unlinked w rows) as -> by reflexivity.
    unfold gc_item.
    destruct (fs w !! lp) as [data|] eqn:Hf; simpl.
    + assert (unlinked (set_db (filter (fun r => cid r ≠ c) (db w))
                               (set_fs (delete lp (fs w)) w)) rows
              = unlinked w rows) as ->.
      { apply filter_ext_elem. intros [c' lp'] Hin. simpl.
        rewrite lookup_delete_ne; [done|]. intros ->. apply Hlp.
        by apply (list_elem_of_fmap_2 snd) in Hin. }
      rewrite list_filter_filter. apply list_filter_iff. intros r.
      rewrite not_elem_of_cons. tauto.
    + done.
Qed.

(** Under the schema, the rows a sweep deletes are the selected rows whose
    blob is in place. *)
Lemma gc_sweep_db_schema cutoff w :
  schema_ok (db w) ->
  db (gc_sweep (gc_select cutoff (db w)) w)
  = filter (fun r => ¬ (gc_eligible cutoff r = true /\ is_Some (fs w !! local_path r)))
           (db w).
Proof.
  intros Hs. destruct (gc_select_NoDup cutoff _ Hs) as [_ Hnd].
  rewrite gc_sweep_db by done. apply filter_ext_elem. intros r Hr.
  apply not_iff_compat. unfold unlinked. rewrite list_elem_of_fmap. split.
  - intros ([c lp] & Hc & Hin). simpl in Hc. subst c.
    apply list_elem_of_filter in Hin as [Hf Hin]. simpl in Hf.
    apply gc_select_elem in Hin as (r' & Hr' & He & Hc & Hl).
    assert (r' = r) as ->; [|by subst lp].
    destruct Hs as [Hcid _]. by apply (NoDup_fmap_elem_eq cid (db w)).
  - intros [He Hf]. exists (cid r, local_path r). split; [done|].
    apply list_elem_of_filter. split; [done|]. apply gc_select_elem. eauto.
Qed.

(** C1.  What [gc] returns is [len(rows)], the number of rows the query
    selected.  The rows it reclaims are the selected rows whose blob was
    in place; a selected row whose deletion fails is counted all the same. *)
Theorem gc_returns_selected_count (now cutoff : Datetime.datetime) (w : World) :
  schema_ok (db w) ->
  Datetime.dt_sub now (Datetime.timedelta_hours 24) = Some cutoff ->
  let selected :=
    filter (fun r => gc_eligible (Datetime.isoformat cutoff) r = true) (db w) in
  (gc now w).1 = Ok (Z.of_nat (length selected)) /\
  (length (db w) - length (db (gc now w).2))%nat
  = length (filter (fun r => is_Some (fs w !! local_path r)) selected).
Proof.
  intros Hs Hc selected. rewrite (gc_unfold _ _ _ Hc). simpl. split.
  - by rewrite gc_select_length.
  - rewrite gc_sweep_db_schema by done. subst selected.
    rewrite list_filter_filter.
    pose proof (filter_split_length
      (fun r => is_Some (fs w !! local_path r) /\
                gc_eligible (Datetime.isoformat cutoff) r = true) (db w)) as H.
    rewrite (list_filter_iff
      (fun r => ¬ (gc_eligible (Datetime.isoformat cutoff) r = true /\
                   is_Some (fs w !! local_path r)))
      (fun r => ¬ (is_Some (fs w !! local_path r) /\
                   gc_eligible (Datetime.isoformat cutoff) r = true)))
      by (intros; tauto).
    lia.
Qed.

(** At [Sample.dangling] the sweep selects two rows, fails on the first,
    reclaims the second, and returns 2. *)
Lemma gc_returns_selected_count_witness :
  (gc Sample.later Sample.dangling).1 = Ok 2 /\
  (length (db Sample.dangling) - length (db (gc Sample.later Sample.dangling).2))%nat
  = 1%nat.
Proof.
  destruct (gc_returns_selected_count Sample.later
              (Datetime.mk_datetime 2024 3 2 12 0 0 500) Sample.dangling)
    as [H1 H2].
  - split; by_compute.
  - vm_compute. reflexivity.
  - split; [exact H1 | exact H2].
Defined.

(** The line printed for a row whose [unlink] raised. *)
Lemma gc_sweep_logged rows w c lp :
  (c, lp) ∈ rows -> fs w !! lp = None ->
  ("Error deleting " +:+ c +:+ ": [Errno 2] No such file or directory: "
   +:+ py_repr lp) ∈ stdout (gc_sweep rows w).
Proof.
  assert (forall rows w line, line ∈ stdout w -> line ∈ stdout (gc_sweep rows w)) as Hmono.
  { clear. induction rows as [|[c lp] rows IH]; intros w line Hl; [done|].
    rewrite gc_sweep_cons. apply IH. unfold gc_item.
    destruct (fs w !! lp); simpl; [done|]. apply elem_of_app. by left. }
  revert w. induction rows as [|[c0 lp0] rows IH]; intros w Hin Hf; [inversion Hin|].
  rewrite gc_sweep_cons. apply elem_of_cons in Hin as [[= <- <-]|Hin].
  - apply Hmono. unfold gc_item. rewrite Hf. simpl. apply elem_of_app. right.
    by apply list_elem_of_singleton.
  - apply IH; [done|]. by apply gc_item_fs_None.
Qed.

(** C2.  What a sweep does with a selected row, whatever happens to the
    other rows.  If the blob is in place, the blob is deleted and then the
    row.  If the blob is already missing, [unlink] raises, the [DELETE] is
    skipped and the error is printed: the row is not removed, and [get]
    still returns it after the sweep. *)
Theorem gc_selected_outcome (now cutoff : Datetime.datetime) (w : World)
        (r : ContentObject) :
  schema_ok (db w) ->
  Datetime.dt_sub now (Datetime.timedelta_hours 24) = Some cutoff ->
  r ∈ db w -> gc_eligible (Datetime.isoformat cutoff) r = true ->
  match fs w !! local_path r with
  | Some _ =>
      get (gc now w).2 (cid r) = None /\ fs (gc now w).2 !! local_path r = None
  | None =>
      get (gc now w).2 (cid r) = Some r /\ r ∈ db (gc now w).2 /\
      ("Error deleting " +:+ cid r +:+ ": [Errno 2] No such file or directory: "
       +:+ py_repr (local_path r)) ∈ stdout (gc now w).2
  end.
Proof.
  intros Hs Hc Hr He. rewrite (gc_unfold _ _ _ Hc). simpl.
  destruct (fs w !! local_path r) as [data|] eqn:Hf.
  - apply gc_sweep_selected_present; [done..|]. rewrite Hf. eauto.
  - destruct (gc_sweep_selected_missing _ w r Hs Hr He Hf) as [H1 H2].
    split; [exact H2|]. split; [exact H1|].
    apply gc_sweep_logged; [|done]. apply gc_select_elem. eauto.
Qed.

(** At [Sample.dangling]: the row without blob stays, the next one goes. *)
Lemma gc_selected_outcome_witness :
  get (gc Sample.later Sample.dangling).2 "QmOld" = Some Sample.old_row /\
  get (gc Sample.later Sample.dangling).2 "QmStale" = None.
Proof.
  assert (schema_ok (db Sample.dangling)) as Hs by (split; by_compute).
  assert (Datetime.dt_sub Sample.later (Datetime.timedelta_hours 24)
          = Some (Datetime.mk_datetime 2024 3 2 12 0 0 500)) as Hc
    by (vm_compute; reflexivity).
  pose proof (gc_selected_outcome _ _ _ Sample.old_row Hs Hc
                ltac:(by_compute) ltac:(vm_compute; reflexivity)) as H1.
  pose proof (gc_selected_outcome _ _ _ Sample.stale_row Hs Hc
                ltac:(by_compute) ltac:(vm_compute; reflexivity)) as H2.
  split; [exact (proj1 H1) | exact (proj1 H2)].
Defined.

End Counting.

Lemma add_file_missing_source_witness :
  exists msg,
    add_file Sample.home "/tmp/absent.bin" Sample.noon Sample.stocked
    = (Raise (FileNotFoundError msg), Sample.stocked).
Proof.
  apply (add_file_missing_source Sample.home "/tmp/absent.bin" Sample.noon
           Sample.stocked).
  vm_compute. reflexivity.
Defined.

(** ** The digest *)

Section Digest.






Lemma append_length (a b : string) :
  String.length (a +:+ b) = (String.length a + String.length b)%nat.
Proof. induction a as [|x a IH]; simpl; [done | by rewrite IH]. Qed.




(** C6.  [_compute_cid] is a function of the bytes and of nothing else:
    equal byte sequences give equal identifiers, and the identifier that
    [add_file] or [add_json] assigns is [_compute_cid] of the content,
    whatever the home directory, the source path, the clock value and the
    state of the store at the time of the call. *)
Theorem compute_cid_deterministic (data : list byte) :
  (forall data', data' = data -> _compute_cid data' = _compute_cid data) /\
  (forall home home' path path' now now' w w' o o' w1 w1',
     fs w !! path = Some data -> fs w' !! path' = Some data ->
     add_file home path now w = (Ok o, w1) ->
     add_file home' path' now' w' = (Ok o', w1') ->
     cid o = _compute_cid data /\ cid o' = cid o) /\
  (forall home dumps v nm now w,
     dumps v = data -> cid (add_json home dumps v nm now w).1 = _compute_cid data).
Proof.
  split; [by intros ? ->|]. split.
  - intros home home' path path' now now' w w' o o' w1 w1' Hf Hf' Ha Ha'.
    apply add_file_Ok_inv in Ha as (d & Hd & Hc & _).
    apply add_file_Ok_inv in Ha' as (d' & Hd' & Hc' & _).
    rewrite Hf in Hd. rewrite Hf' in Hd'. injection Hd as <-. injection Hd' as <-.
    by rewrite Hc, Hc'.
  - intros home dumps v nm now w <-. reflexivity.
Qed.

End Digest.

Example sha256_vectors :
  SHA256.hexdigest (bytes_of_string "abc")
  = "ba7816bf8f01cfea414140de5dae2223b00361a396177a9cb410ff61f20015ad"%string
  /\ SHA256.hexdigest []
     = "e3b0c44298fc1c149afbf4c8996fb92427ae41e4649b934ca495991b7852b855"%string
  /\ SHA256.hexdigest
       (bytes_of_string "abcdbcdecdefdefgefghfghighijhijkijkljklmklmnlmnomnopnopq")
     = "248d6a61d20638b8e5c026930c3e6039a33ce45964ff2167f6ecedd419db06c1"%string.
Proof. vm_compute. repeat split; reflexivity. Qed.

Example compute_cid_hi :
  _compute_cid (bytes_of_string "hi")
  = "Qm8f434346648f6b96df89dda901c5176b10a6d83961dd"%string.
Proof. vm_compute. reflexivity. Qed.

Lemma compute_cid_deterministic_witness :
  exists o o' w1 w1',
    add_file "/home/u" "/tmp/hello.txt" Sample.noon Sample.fresh = (Ok o, w1) /\
    add_file "/root" "/tmp/copy.md" Sample.later Sample.fresh = (Ok o', w1') /\
    cid o = _compute_cid (bytes_of_string "hi") /\ cid o' = cid o.
Proof.
  assert (fs Sample.fresh !! "/tmp/hello.txt"%string = Some (bytes_of_string "hi"))
    as F1 by (vm_compute; reflexivity).
  assert (fs Sample.fresh !! "/tmp/copy.md"%string = Some (bytes_of_string "hi"))
    as F2 by (vm_compute; reflexivity).
  pose proof (add_file_ok "/home/u" "/tmp/hello.txt" Sample.noon Sample.fresh _ F1
                ltac:(by_compute)) as E1.
  pose proof (add_file_ok "/root" "/tmp/copy.md" Sample.later Sample.fresh _ F2
                ltac:(by_compute)) as E2.
  simpl in E1, E2. do 4 eexists. split; [exact E1|]. split; [exact E2|].
  exact (proj1 (proj2 (compute_cid_deterministic (bytes_of_string "hi")))
           _ _ _ _ _ _ _ _ _ _ _ _ F1 F2 E1 E2).
Defined.

(** ** Referential integrity *)

Section Integrity.

Variable home : string.
Variable json_dumps : json -> list byte.

Implicit Types (w : World) (r : ContentObject).

Lemma append_inj_l (s a b : string) : s +:+ a = s +:+ b -> a = b.
Proof. induction s as [|x s IH]; simpl; [done|]. intros [= H]. by apply IH. Qed.


(** *** The schema is kept *)

Lemma store_metadata_schema obj w :
  schema_ok (db w) -> schema_ok (db (_store_metadata obj w)).
Proof.
  intros [Hc Hl]. unfold _store_metadata. simpl.
  split; rewrite fmap_app; apply NoDup_app; (split; [by apply NoDup_fmap_filter|]);
    (split; [|apply NoDup_singleton]); intros x Hx Hin;
    apply list_elem_of_fmap in Hx as (r & -> & Hr);
    apply list_elem_of_filter in Hr as [[H1 H2] _];
    apply list_elem_of_singleton in Hin; auto.
Qed.

Lemma update_pinned_schema c v w :
  schema_ok (db w) -> schema_ok (db (update_pinned c v w)).
Proof.
  intros [Hc Hl]. unfold update_pinned. simpl.
  split; rewrite <- list_fmap_compose.
  - erewrite list_fmap_ext; [exact Hc|]. intros i r _. simpl.
    by destruct (String.eqb (cid r) c).
  - erewrite list_fmap_ext; [exact Hl|]. intros i r _. simpl.
    by destruct (String.eqb (cid r) c).
Qed.

Lemma gc_sweep_schema rows w :
  schema_ok (db w) -> schema_ok (db (gc_sweep rows w)).
Proof.
  revert w. induction rows as [|[c lp] rows IH]; intros w Hs; [done|].
  rewrite gc_sweep_cons. apply IH. unfold gc_item.
  destruct (fs w !! lp); simpl; [|done].
  destruct Hs. split; by apply NoDup_fmap_filter.
Qed.

(** *** Each call keeps the invariant *)













End Integrity.


(** ** The age threshold *)

Section Threshold.

Import Datetime.

Implicit Types (w : World) (r : ContentObject).

Lemma gc_eligible_iff cutoff_time r :
  gc_eligible cutoff_time r = true
  <-> pinned r = false /\ str_ltb (uploaded_at r) cutoff_time = true.
Proof.
  unfold gc_eligible. rewrite andb_true_iff, negb_true_iff. tauto.
Qed.

(** For a time stamp written by [isoformat], the comparison of the query
    is the comparison of the instants. *)
Lemma uploaded_before_iff r t cutoff :
  valid t -> valid cutoff -> uploaded_at r = isoformat t ->
  str_ltb (uploaded_at r) (isoformat cutoff) = true <-> micros t < micros cutoff.
Proof.
  intros Vt Vc ->. by rewrite isoformat_ltb, dt_ltb_micros, Z.ltb_lt.
Qed.

Lemma micros_bounds t :
  valid t ->
  toordinal t * 86400000000 <= micros t < (toordinal t + 1) * 86400000000.
Proof. intros (_ & _ & _ & Hh & Hm & Hs & Hu). unfold micros. lia. Qed.

(** The cutoff of a sweep exists on every day but the first of the
    calendar, and lies exactly 24 hours before the clock value. *)
Lemma gc_cutoff now :
  valid now -> 1 < toordinal now ->
  exists cutoff,
    dt_sub now (timedelta_hours 24) = Some cutoff /\ valid cutoff /\
    micros cutoff = micros now - 24 * 3600 * 1000000.
Proof.
  intros V Hord. pose proof (micros_bounds now V) as Hb.
  pose proof (toordinal_bounds now V) as Ho.
  assert (td_micros (td_neg (timedelta_hours 24)) = - (24 * 3600 * 1000000)) as Hd.
  { rewrite td_neg_micros, timedelta_hours_micros. lia. }
  destruct (dt_add_Some now (td_neg (timedelta_hours 24)) V) as [cutoff Hc].
  { rewrite Hd. unfold _MAXORDINAL in *. lia. }
  exists cutoff. split; [exact Hc|].
  destruct (dt_add_spec _ _ _ V Hc) as [Vc Hm]. split; [exact Vc|]. lia.
Qed.

(** C4.  On any day but the first of the calendar, [gc] computes the
    cutoff 24 hours before the clock value and selects exactly the rows
    with [pinned = 0] whose [uploaded_at] sorts strictly before the cutoff
    string, which for a time stamp written by [isoformat] means: uploaded
    strictly earlier than the cutoff.  An unpinned row uploaded one second
    before the cutoff, its blob in place, is reclaimed with its blob; a
    row uploaded at the cutoff or one second after it stays as it is. *)
Theorem gc_age_threshold (now : datetime) (w : World) :
  valid now -> 1 < toordinal now ->
  exists cutoff,
    dt_sub now (timedelta_hours 24) = Some cutoff /\ valid cutoff /\
    micros cutoff = micros now - 24 * 3600 * 1000000 /\
    gc now w
    = (Ok (Z.of_nat (length (gc_select (isoformat cutoff) (db w)))),
       gc_sweep (gc_select (isoformat cutoff) (db w)) w) /\
    (forall c lp,
       (c, lp) ∈ gc_select (isoformat cutoff) (db w)
       <-> exists r, r ∈ db w /\ pinned r = false /\
             str_ltb (uploaded_at r) (isoformat cutoff) = true /\
             cid r = c /\ local_path r = lp) /\
    (forall r t, valid t -> uploaded_at r = isoformat t ->
       str_ltb (uploaded_at r) (isoformat cutoff) = true
       <-> micros t < micros cutoff) /\
    (forall r t,
       r ∈ db w -> pinned r = false ->
       dt_sub cutoff (timedelta_seconds 1) = Some t ->
       uploaded_at r = isoformat t ->
       (cid r, local_path r) ∈ gc_select (isoformat cutoff) (db w) /\
       (schema_ok (db w) -> is_Some (fs w !! local_path r) ->
        get (gc now w).2 (cid r) = None /\
        fs (gc now w).2 !! local_path r = None)) /\
    (forall r t,
       r ∈ db w ->
       t = cutoff \/ dt_add cutoff (timedelta_seconds 1) = Some t ->
       uploaded_at r = isoformat t ->
       gc_eligible (isoformat cutoff) r = false /\
       (schema_ok (db w) ->
        get (gc now w).2 (cid r) = Some r /\
        fs (gc now w).2 !! local_path r = fs w !! local_path r)).
Proof.
  intros V Hord. destruct (gc_cutoff now V Hord) as (cutoff & Hc & Vc & Hm).
  exists cutoff. split; [exact Hc|]. split; [exact Vc|]. split; [exact Hm|].
  rewrite (gc_unfold _ _ _ Hc). split; [reflexivity|]. split; [|split; [|split]].
  - intros c lp. rewrite gc_select_elem. split.
    + intros (r & Hr & He & Hcid & Hlp). apply gc_eligible_iff in He as [Hp Hs].
      exists r. auto.
    + intros (r & Hr & Hp & Hs & Hcid & Hlp). exists r.
      rewrite gc_eligible_iff. auto.
  - intros r t Vt Hup. by apply uploaded_before_iff.
  - intros r t Hr Hp Ht Hup. simpl.
    destruct (dt_add_spec _ _ _ Vc Ht) as [Vt Hmt].
    rewrite td_neg_micros, timedelta_seconds_micros in Hmt.
    assert (gc_eligible (isoformat cutoff) r = true) as He.
    { apply gc_eligible_iff. split; [done|].
      apply (uploaded_before_iff r t cutoff Vt Vc Hup). lia. }
    split; [apply gc_select_elem; eauto|].
    intros Hs Hf. by apply gc_sweep_selected_present.
  - intros r t Hr Ht Hup. simpl.
    assert (gc_eligible (isoformat cutoff) r = false) as He.
    { destruct (gc_eligible (isoformat cutoff) r) eqn:He; [|done].
      exfalso. apply gc_eligible_iff in He as [_ He].
      destruct Ht as [->|Ht].
      - apply (uploaded_before_iff r cutoff cutoff Vc Vc Hup) in He. lia.
      - destruct (dt_add_spec _ _ _ Vc Ht) as [Vt Hmt].
        rewrite timedelta_seconds_micros in Hmt.
        apply (uploaded_before_iff r t cutoff Vt Vc Hup) in He. lia. }
    split; [exact He|]. intros Hs. by apply gc_sweep_not_selected.
Qed.

End Threshold.

Lemma gc_age_threshold_witness :
  (gc Sample.later Sample.boundary).1 = Ok 1 /\
  get (gc Sample.later Sample.boundary).2 "QmBefore" = None /\
  fs (gc Sample.later Sample.boundary).2 !! Sample.blob_path "QmBefore" = None /\
  get (gc Sample.later Sample.boundary).2 "QmAfter" = Some Sample.after_row.
Proof.
  assert (Datetime.valid Sample.later) as V by (unfold Datetime.valid; by_compute).
  assert (1 < Datetime.toordinal Sample.later) as Hord by (vm_compute; reflexivity).
  destruct (gc_age_threshold Sample.later Sample.boundary V Hord)
    as (cutoff & Hc & _ & _ & Hgc & _ & _ & Hbefore & Hafter).
  assert (cutoff = Datetime.mk_datetime 2024 3 2 12 0 0 500) as ->.
  { vm_compute in Hc. by injection Hc. }
  assert (schema_ok (db Sample.boundary)) as Hs by (split; by_compute).
  destruct (Hbefore Sample.before_row (Datetime.mk_datetime 2024 3 2 11 59 59 500))
    as [_ Hb]; [by_compute | reflexivity | vm_compute; reflexivity
                | vm_compute; reflexivity |].
  destruct (Hb Hs) as [H1 H2]; [by_compute|].
  destruct (Hafter Sample.after_row (Datetime.mk_datetime 2024 3 2 12 0 1 500))
    as [_ Ha]; [by_compute | right; vm_compute; reflexivity | vm_compute; reflexivity |].
  destruct (Ha Hs) as [H3 _].
  split; [|split; [exact H1 | split; [exact H2 | exact H3]]].
  rewrite Hgc. vm_compute. reflexivity.
Defined.

(** * Further properties of the gateway *)

(** ** The shape of an identifier *)

Section CidFormat.







End CidFormat.

(** ** Insert and look up *)

Section Upsert.

Implicit Types (w : World) (r obj : ContentObject) (c : string).




End Upsert.



(** ** Adding a file, adding a JSON value *)

Section AddRoundTrip.

Variable home : string.
Variable json_dumps : json -> list byte.



End AddRoundTrip.



(** ** Pin and unpin, composed *)

Section PinCompose.

Implicit Types (w : World) (r : ContentObject) (c : string).

Lemma update_pinned_twice c v1 v2 w :
  update_pinned c v2 (update_pinned c v1 w) = update_pinned c v2 w.
Proof.
  unfold update_pinned, set_db. simpl. f_equal.
  rewrite <- list_fmap_compose. apply list_fmap_ext. intros i r _. simpl.
  destruct (String.eqb (cid r) c) eqn:E; simpl; by rewrite E.
Qed.

Lemma update_pinned_comm c1 c2 v1 v2 w :
  c1 ≠ c2 ->
  update_pinned c2 v2 (update_pinned c1 v1 w)
  = update_pinned c1 v1 (update_pinned c2 v2 w).
Proof.
  intros Hne. unfold update_pinned, set_db. simpl. f_equal.
  rewrite <- !list_fmap_compose. apply list_fmap_ext. intros i r _. simpl.
  destruct (String.eqb (cid r) c1) eqn:E1, (String.eqb (cid r) c2) eqn:E2;
    simpl; rewrite ?E1, ?E2; try reflexivity.
  apply String.eqb_eq in E1, E2. congruence.
Qed.

Lemma get_update_pinned_is_Some c c' v w :
  is_Some (get (update_pinned c v w) c') <-> is_Some (get w c').
Proof.
  unfold get. simpl. destruct (decide (c' = c)) as [->|Hne].
  - destruct (find_cid c (db w)) as [r|] eqn:E.
    + rewrite (find_cid_update_eq c v _ r E). by split; eauto.
    + assert (find_cid c ((fun r => if String.eqb (cid r) c then with_pinned v r else r)
                            <$> db w) = None) as ->; [|done].
      apply find_cid_None. intros r' Hr'.
      apply list_elem_of_fmap in Hr' as (r & -> & Hr).
      pose proof (proj1 (find_cid_None c (db w)) E r Hr) as Hc.
      by destruct (String.eqb (cid r) c).
  - by rewrite find_cid_update_ne.
Qed.

(** X5.  Setting the flag twice on one id is setting it once, with the
    value of the second call: [pin] and [unpin] are idempotent and the
    last call wins, return value and state alike.  Calls on two different
    ids commute. *)
Theorem pin_unpin_last_wins (c : string) (v1 v2 : bool) (w : World) :
  let set c (v : bool) w := if v then pin c w else unpin c w in
  set c v2 (set c v1 w).2 = set c v2 w /\
  (forall c' v', c' ≠ c ->
     (set c' v' (set c v1 w).2).2 = (set c v1 (set c' v' w).2).2).
Proof.
  intros set.
  assert (forall c v w, set c v w = match get w c with
                                    | None => (false, w)
                                    | Some _ => (true, update_pinned c v w)
                                    end) as Hset.
  { intros c0 v w0. unfold set, pin, unpin. by destruct v, (get w0 c0). }
  split.
  - rewrite !Hset. destruct (get w c) as [r|] eqn:E; simpl; [|by rewrite E].
    destruct (proj2 (get_update_pinned_is_Some c c v1 w)) as [r' ->]; [by rewrite E|].
    by rewrite update_pinned_twice.
  - intros c' v' Hne. rewrite !Hset.
    destruct (get w c) as [r|] eqn:E, (get w c') as [r'|] eqn:E'; simpl.
    + destruct (proj2 (get_update_pinned_is_Some c c' v1 w)) as [? ->]; [by rewrite E'|].
      destruct (proj2 (get_update_pinned_is_Some c' c v' w)) as [? ->]; [by rewrite E|].
      simpl. by apply update_pinned_comm.
    + assert (get (update_pinned c v1 w) c' = None) as ->.
      { destruct (get (update_pinned c v1 w) c') eqn:G; [|done].
        destruct (proj1 (get_update_pinned_is_Some c c' v1 w)) as [? Hx]; [eauto|].
        congruence. }
      simpl. by rewrite E.
    + rewrite E'. simpl.
      assert (get (update_pinned c' v' w) c = None) as ->; [|done].
      destruct (get (update_pinned c' v' w) c) eqn:G; [|done].
      destruct (proj1 (get_update_pinned_is_Some c' c v' w)) as [? Hx]; [eauto|].
      congruence.
    + rewrite E', E. done.
Qed.

(** X6.  A pin taken before a sweep holds: once [pin] has found the id,
    a sweep at any clock value leaves the row, now pinned, in the index
    and leaves the file at its [local_path] as it is. *)
Theorem pin_then_gc (c : string) (now : Datetime.datetime) (w : World)
        (r : ContentObject) :
  schema_ok (db w) -> get w c = Some r ->
  (pin c w).1 = true /\
  get (gc now (pin c w).2).2 c = Some (with_pinned true r) /\
  fs (gc now (pin c w).2).2 !! local_path r = fs w !! local_path r.
Proof.
  intros Hs Hg. unfold pin. rewrite Hg. simpl. split; [done|].
  set (w1 := update_pinned c true w).
  assert (schema_ok (db w1)) as Hs1 by (by apply update_pinned_schema).
  assert (find_cid c (db w1) = Some (with_pinned true r)) as Hf
    by (by apply find_cid_update_eq).
  apply find_cid_Some in Hf as Hin. destruct Hin as [Hin Hc].
  destruct (gc_world now w1) as [->|[cutoff ->]].
  - split; [exact Hf | done].
  - destruct (gc_sweep_not_selected cutoff w1 (with_pinned true r) Hs1 Hin)
      as [H1 H2]; [done|].
    simpl in H1, H2. unfold get. rewrite <- Hc at 1. split; [exact H1 | exact H2].
Qed.

End PinCompose.

Lemma pin_then_gc_witness :
  get (gc Sample.later (pin "QmOld" Sample.stocked).2).2 "QmOld"
  = Some (with_pinned true Sample.old_row) /\
  get (gc Sample.later Sample.stocked).2 "QmOld" = None.
Proof.
  split.
  - apply (pin_then_gc "QmOld" Sample.later Sample.stocked Sample.old_row).
    + split; by_compute.
    + vm_compute. reflexivity.
  - vm_compute. reflexivity.
Defined.


(** ** Sweeps: what they touch, what they report, what a second one does *)

Section SweepMore.

Implicit Types (w : World) (rows : list (string * string)) (r : ContentObject).

Lemma gc_sweep_fs_lookup rows w p :
  fs (gc_sweep rows w) !! p = if decide (p ∈ rows.*2) then None else fs w !! p.
Proof.
  case_decide; [by apply gc_sweep_fs_gone | by apply gc_sweep_fs_other].
Qed.

Lemma gc_sweep_stdout_prefix rows w : stdout w `prefix_of` stdout (gc_sweep rows w).
Proof.
  revert w. induction rows as [|[c lp] rows IH]; intros w; [done|].
  rewrite gc_sweep_cons. etrans; [|apply IH]. unfold gc_item.
  destruct (fs w !! lp); simpl; [done|]. by apply prefix_app_r.
Qed.

Lemma gc_sweep_stdout_length rows w :
  NoDup rows.*2 ->
  length (stdout (gc_sweep rows w))
  = (length (stdout w) + length (filter (fun row => fs w !! row.2 = None) rows))%nat.
Proof.
  revert w. induction rows as [|[c lp] rows IH]; intros w Hnd; [simpl; lia|].
  rewrite fmap_cons, NoDup_cons in Hnd. destruct Hnd as [Hlp Hnd].
  rewrite gc_sweep_cons, IH by done. rewrite filter_cons. unfold gc_item.
  cbn [snd]. destruct (fs w !! lp) as [data|] eqn:Hf.
  - rewrite decide_False by done. cbn [stdout set_db set_fs fs]. f_equal. f_equal.
    apply filter_ext_elem. intros [c' lp'] Hin. cbn [snd].
    rewrite lookup_delete_ne; [done|]. intros ->. apply Hlp.
    by apply (list_elem_of_fmap_2 snd) in Hin.
  - rewrite decide_True by done. cbn [stdout print fs]. rewrite length_app.
    cbn [length]. lia.
Qed.

(** X9.  A sweep only takes away: every row it leaves was there before,
    every file is as before or is gone, a file that is gone was the
    [local_path] of an unpinned row, and what was printed before is still
    the beginning of the output. *)
Theorem gc_only_removes (now : Datetime.datetime) (w : World) :
  (forall r, r ∈ db (gc now w).2 -> r ∈ db w) /\
  (forall p, fs (gc now w).2 !! p = fs w !! p \/
             (fs (gc now w).2 !! p = None /\
              exists r, r ∈ db w /\ pinned r = false /\ local_path r = p)) /\
  stdout w `prefix_of` stdout (gc now w).2.
Proof.
  destruct (gc_world now w) as [->|[cutoff ->]]; [by auto|].
  split; [|split].
  - intros r. apply gc_sweep_db_sub.
  - intros p. rewrite gc_sweep_fs_lookup. case_decide as Hp; [right | by left].
    split; [done|]. rewrite gc_select_snd in Hp.
    apply list_elem_of_fmap in Hp as (r & -> & Hr).
    apply list_elem_of_filter in Hr as [He Hr]. exists r.
    unfold gc_eligible in He. apply andb_true_iff in He as [He _].
    apply negb_true_iff in He. done.
  - apply gc_sweep_stdout_prefix.
Qed.

(** X10.  Every selected row is either removed or reported: the number
    [gc] returns is the number of rows it removed plus the number of error
    lines it printed.  When every row has its blob, nothing is printed and
    the number returned is the number of rows removed. *)
Theorem gc_accounting (now cutoff : Datetime.datetime) (w : World) :
  schema_ok (db w) ->
  Datetime.dt_sub now (Datetime.timedelta_hours 24) = Some cutoff ->
  let removed := (length (db w) - length (db (gc now w).2))%nat in
  let printed := (length (stdout (gc now w).2) - length (stdout w))%nat in
  (gc now w).1 = Ok (Z.of_nat (removed + printed)) /\
  ((forall r, r ∈ db w -> is_Some (fs w !! local_path r)) ->
   (gc now w).1 = Ok (Z.of_nat removed) /\ stdout (gc now w).2 = stdout w).
Proof.
  intros Hs Hc removed printed. subst removed printed.
  rewrite (gc_unfold _ _ _ Hc). simpl.
  set (ct := Datetime.isoformat cutoff).
  destruct (gc_select_NoDup ct _ Hs) as [_ Hnd].
  rewrite gc_sweep_stdout_length, gc_sweep_db_schema by done.
  set (E := fun r => gc_eligible ct r = true).
  set (Pr := fun r => is_Some (fs w !! local_path r)).
  assert (length (filter (fun row => fs w !! row.2 = None) (gc_select ct (db w)))
          = length (filter (fun r => ¬ Pr r) (filter E (db w)))) as Hmiss.
  { unfold gc_select. fold E. induction (filter E (db w)) as [|x l IH]; [done|].
    rewrite fmap_cons, !filter_cons. cbn [snd].
    destruct (decide (fs w !! local_path x = None)) as [Hx|Hx].
    - rewrite decide_True; [cbn [length]; by rewrite IH|].
      unfold Pr. rewrite Hx. by intros [? ?].
    - rewrite decide_False; [exact IH|].
      intros H. apply H. unfold Pr. by apply not_eq_None_Some. }
  assert (length (filter (fun r => ¬ (E r /\ Pr r)) (db w))
          + length (filter Pr (filter E (db w))) = length (db w))%nat as Hrem.
  { rewrite list_filter_filter.
    rewrite (list_filter_iff (fun r => Pr r /\ E r) (fun r => E r /\ Pr r))
      by (intros; tauto).
    pose proof (filter_split_length (fun r => E r /\ Pr r) (db w)). lia. }
  pose proof (filter_split_length Pr (filter E (db w))) as Hsplit.
  pose proof (length_filter (fun r => ¬ (E r /\ Pr r)) (db w)) as Hle.
  assert (length (gc_select ct (db w)) = length (filter E (db w))) as Hsel
    by apply gc_select_length.
  subst E Pr. cbv beta in *. split.
  - f_equal. f_equal. lia.
  - intros Hall.
    assert (filter (fun r => ¬ is_Some (fs w !! local_path r))
                   (filter (fun r => gc_eligible ct r = true) (db w)) = []) as Hnone.
    { apply filter_none. intros r Hr HP. apply HP.
      apply list_elem_of_filter in Hr as [_ Hr]. by apply Hall. }
    rewrite Hnone in *. simpl in *. split; [f_equal; f_equal; lia|].
    pose proof (gc_sweep_stdout_prefix (gc_select ct (db w)) w) as Hp.
    pose proof (gc_sweep_stdout_length (gc_select ct (db w)) w Hnd) as Hl.
    rewrite Hmiss in Hl. simpl in Hl.
    symmetry. apply prefix_length_eq; [done | lia].
Qed.

(** X8.  A second sweep at the same clock value finds nothing more to
    do: it leaves the index and the files as the first sweep left them. *)
Theorem gc_twice (now : Datetime.datetime) (w : World) :
  schema_ok (db w) ->
  db (gc now (gc now w).2).2 = db (gc now w).2 /\
  fs (gc now (gc now w).2).2 = fs (gc now w).2.
Proof.
  intros Hs. unfold gc.
  destruct (Datetime.dt_sub now (Datetime.timedelta_hours 24)) as [cutoff|]; [|done].
  cbn [snd]. set (ct := Datetime.isoformat cutoff).
  set (w1 := gc_sweep (gc_select ct (db w)) w).
  assert (schema_ok (db w1)) as Hs1 by (by apply gc_sweep_schema).
  assert (forall r, r ∈ db w1 -> gc_eligible ct r = true -> fs w1 !! local_path r = None)
    as Hmissing.
  { intros r Hr He. subst w1. rewrite gc_sweep_db_schema in Hr by done.
    apply list_elem_of_filter in Hr as [Hn Hr]. apply gc_sweep_fs_None.
    destruct (fs w !! local_path r) eqn:Hf; [|done].
    exfalso. apply Hn. split; [done | eauto]. }
  split.
  - rewrite (gc_sweep_db_schema ct w1 Hs1). apply filter_all.
    intros r Hr [He [x Hx]]. rewrite (Hmissing r Hr He) in Hx. discriminate.
  - apply map_eq. intros p. rewrite gc_sweep_fs_lookup. case_decide as Hp; [|done].
    rewrite gc_select_snd in Hp. apply list_elem_of_fmap in Hp as (r & -> & Hr).
    apply list_elem_of_filter in Hr as [He Hr]. symmetry. by apply Hmissing.
Qed.

End SweepMore.

Lemma gc_accounting_witness :
  (gc Sample.later Sample.dangling).1 = Ok 2 /\
  (length (db Sample.dangling) - length (db (gc Sample.later Sample.dangling).2))%nat
  = 1%nat /\
  (length (stdout (gc Sample.later Sample.dangling).2)
   - length (stdout Sample.dangling))%nat = 1%nat.
Proof.
  destruct (gc_accounting Sample.later (Datetime.mk_datetime 2024 3 2 12 0 0 500)
              Sample.dangling) as [H _].
  - split; by_compute.
  - vm_compute. reflexivity.
  - split; [|split; vm_compute; reflexivity].
    rewrite H. vm_compute. reflexivity.
Defined.

Lemma gc_twice_witness :
  db (gc Sample.later (gc Sample.later Sample.dangling).2).2
  = [Sample.old_row; Sample.kept_row] /\
  fs (gc Sample.later (gc Sample.later Sample.dangling).2).2
  = fs (gc Sample.later Sample.dangling).2.
Proof.
  destruct (gc_twice Sample.later Sample.dangling) as [H1 H2]; [split; by_compute|].
  split; [|exact H2]. rewrite H1. vm_compute. reflexivity.
Defined.


(** ** The life of an added file *)

Section Lifetime.

Import Datetime.

Variable home : string.

Lemma dt_add_None t d :
  valid t -> micros t + td_micros d < 86400000000 -> dt_add t d = None.
Proof.
  intros V Hr. unfold dt_add.
  set (base := normalize (toordinal t)
                 (hour t * 3600 + minute t * 60 + second t) (microsecond t)).
  set (delta := td_add base d).
  assert (td_micros delta = micros t + td_micros d) as Hmic.
  { subst delta base. rewrite td_add_micros.
    destruct (normalize_spec (toordinal t)
                (hour t * 3600 + minute t * 60 + second t) (microsecond t)) as [-> _].
    unfold micros. lia. }
  assert (0 <= seconds delta < 86400 /\ 0 <= microseconds delta < 1000000) as [Hs Hu].
  { subst delta. unfold td_add. apply normalize_spec. }
  clearbody delta. clear base.
  assert ((0 <? days delta) = false) as ->; [|done].
  apply Z.ltb_ge. rewrite <- Hmic in Hr. unfold td_micros in Hr. lia.
Qed.

(** X7.  A file added at [t] and swept at [now], nothing else in between:
    if no more than 24 hours have passed, the sweep leaves row and blob in
    place; if more than 24 hours have passed, the sweep removes both. *)
Theorem add_then_gc (path : string) (t now : datetime) (w : World) (data : list byte) :
  valid t -> valid now -> 1 < toordinal now -> schema_ok (db w) ->
  fs w !! path = Some data ->
  path ≠ path_join (STORE_DIR home) (_compute_cid data) ->
  exists o w1,
    add_file home path t w = (Ok o, w1) /\
    (micros now - micros t <= 86400000000 ->
     get (gc now w1).2 (cid o) = Some o /\
     fs (gc now w1).2 !! local_path o = Some data) /\
    (86400000000 < micros now - micros t ->
     get (gc now w1).2 (cid o) = None /\
     fs (gc now w1).2 !! local_path o = None).
Proof.
  intros Vt Vn Hord Hs Hf Hp.
  pose proof (add_file_ok home path t w data Hf Hp) as H. cbv zeta in H.
  set (o := mk_object _ _ _ _ _ _ _) in H. set (w1 := _store_metadata o _) in H.
  exists o, w1. split; [exact H|].
  assert (schema_ok (db w1)) as Hs1 by (by apply (store_metadata_schema o (set_fs _ w))).
  assert (o ∈ db w1) as Hin.
  { subst w1. simpl. apply elem_of_app. right. by apply list_elem_of_singleton. }
  assert (fs w1 !! local_path o = Some data) as Hblob.
  { subst w1 o. simpl. by rewrite lookup_insert_eq. }
  destruct (gc_cutoff now Vn Hord) as (cutoff & Hc & Vc & Hm).
  rewrite (gc_unfold _ _ _ Hc). cbn [snd].
  assert (uploaded_at o = isoformat t /\ pinned o = false) as [Hup Hpin] by done.
  clearbody o w1.
  pose proof (uploaded_before_iff o t cutoff Vt Vc Hup) as Hbefore.
  split.
  - intros Hage.
    destruct (gc_sweep_not_selected (isoformat cutoff) w1 o Hs1 Hin) as [H1 H2].
    + destruct (gc_eligible (isoformat cutoff) o) eqn:He; [|done].
      apply gc_eligible_iff in He as [_ He]. apply Hbefore in He. lia.
    + split; [exact H1|]. by rewrite H2.
  - intros Hage. apply gc_sweep_selected_present; [done..| |by rewrite Hblob].
    apply gc_eligible_iff. split; [done|]. apply Hbefore. lia.
Qed.

(** X11.  [gc] raises [OverflowError] exactly when the clock shows the
    first day of the calendar, 0001-01-01; it has then changed nothing.
    At every other clock value it returns a count. *)
Theorem gc_overflow (now : datetime) (w : World) :
  valid now ->
  ((exists e, gc now w = (Raise e, w))
   <-> year now = 1 /\ month now = 1 /\ day now = 1) /\
  ((exists n, (gc now w).1 = Ok n)
   <-> ¬ (year now = 1 /\ month now = 1 /\ day now = 1)).
Proof.
  intros V.
  assert (toordinal now = 1 <-> year now = 1 /\ month now = 1 /\ day now = 1) as Hfirst.
  { assert (valid_date 1 1 1) as V1 by (split; [lia | vm_compute; split; discriminate]).
    pose proof (ymd2ord_inj _ _ _ _ _ _ (valid_date_of now V) V1) as Hinj.
    change (_ymd2ord 1 1 1) with 1 in Hinj. fold (toordinal now) in Hinj.
    split.
    - intros E. rewrite E in Hinj. simpl in Hinj.
      apply andb_true_iff in Hinj as [Hinj Hd]. apply andb_true_iff in Hinj as [Hy Hm].
      apply Z.eqb_eq in Hy, Hm, Hd. done.
    - intros (Hy & Hm & Hd). rewrite Hy, Hm, Hd in Hinj. simpl in Hinj.
      symmetry in Hinj. by apply Z.eqb_eq in Hinj. }
  pose proof (toordinal_bounds now V) as Hb.
  destruct (decide (toordinal now = 1)) as [E|E].
  - assert (dt_sub now (timedelta_hours 24) = None) as Hnone.
    { apply dt_add_None; [done|].
      rewrite td_neg_micros, timedelta_hours_micros.
      pose proof (micros_bounds now V). lia. }
    unfold gc. rewrite Hnone. simpl. split.
    + split; [intros _; by apply Hfirst | eauto].
    + split; [by intros [? ?] | intros Hn; exfalso; apply Hn; by apply Hfirst].
  - destruct (gc_cutoff now V ltac:(lia)) as (cutoff & Hc & _).
    rewrite (gc_unfold _ _ _ Hc). simpl. split.
    + split; [by intros [? [=]] | intros Hf; exfalso; apply E; by apply Hfirst].
    + split; [intros _ Hf; apply E; by apply Hfirst | eauto].
Qed.

End Lifetime.

Lemma add_then_gc_witness :
  exists o w1,
    add_file Sample.home "/tmp/hello.txt" Sample.noon Sample.fresh = (Ok o, w1) /\
    get (gc (Datetime.mk_datetime 2024 3 2 12 0 0 0) w1).2 (cid o) = Some o /\
    get (gc Sample.later w1).2 (cid o) = None.
Proof.
  assert (Datetime.valid Sample.noon) as Vt by (unfold Datetime.valid; by_compute).
  assert (schema_ok (db Sample.fresh)) as Hs by (split; by_compute).
  destruct (add_then_gc Sample.home "/tmp/hello.txt" Sample.noon
              (Datetime.mk_datetime 2024 3 2 12 0 0 0) Sample.fresh
              (bytes_of_string "hi") Vt)
    as (o & w1 & H & Hkeep & _);
    [unfold Datetime.valid; by_compute | vm_compute; reflexivity | exact Hs
     | vm_compute; reflexivity | by_compute |].
  destruct (add_then_gc Sample.home "/tmp/hello.txt" Sample.noon Sample.later
              Sample.fresh (bytes_of_string "hi") Vt)
    as (o' & w1' & H' & _ & Hdrop);
    [unfold Datetime.valid; by_compute | vm_compute; reflexivity | exact Hs
     | vm_compute; reflexivity | by_compute |].
  rewrite H in H'. injection H' as <- <-.
  exists o, w1. split; [exact H|]. split.
  - apply Hkeep. vm_compute. discriminate.
  - apply Hdrop. vm_compute. reflexivity.
Defined.

Lemma gc_overflow_witness :
  (exists e, gc (Datetime.mk_datetime 1 1 1 9 30 0 0) Sample.stocked
             = (Raise e, Sample.stocked)) /\
  (exists n, (gc Sample.later Sample.stocked).1 = Ok n).
Proof.
  split.
  - apply (gc_overflow (Datetime.mk_datetime 1 1 1 9 30 0 0) Sample.stocked);
      [unfold Datetime.valid; by_compute | done].
  - apply (gc_overflow Sample.later Sample.stocked);
      [unfold Datetime.valid; by_compute | by intros [[=] _]].
Defined.


(** ** Listing, statistics, export *)

Section Reading.

Implicit Types (w : World) (r : ContentObject) (c : string).

Lemma filter_cid_find c (d : list ContentObject) :
  NoDup (cid <$> d) ->
  filter (fun r => cid r = c) d
  = match find_cid c d with Some r => [r] | None => [] end.
Proof.
  induction d as [|x d IH]; intros Hnd; [done|].
  rewrite fmap_cons, NoDup_cons in Hnd. destruct Hnd as [Hx Hnd].
  rewrite filter_cons. simpl. destruct (String.eqb_spec (cid x) c) as [E|E].
  - rewrite decide_True by done. f_equal. apply filter_none.
    intros r Hr Hc. apply Hx. rewrite E, <- Hc. by apply list_elem_of_fmap_2.
  - rewrite decide_False by done. by apply IH.
Qed.

(** X12.  [ls] without an id, and [ls] with the empty string as id, list
    the whole table in row order; [ls] with any other id lists the rows
    with that id, which under the primary key is the one row [get] finds,
    or nothing. *)
Theorem ls_lists (w : World) :
  ls None w = db w /\ ls (Some "") w = db w /\
  (forall c r, c ≠ "" -> r ∈ ls (Some c) w <-> r ∈ db w /\ cid r = c) /\
  (schema_ok (db w) ->
   forall c, c ≠ "" ->
     ls (Some c) w = match get w c with Some r => [r] | None => [] end).
Proof.
  split; [done|]. split; [done|]. split.
  - intros c r Hc. destruct c as [|a c]; [done|]. simpl.
    rewrite list_elem_of_filter. tauto.
  - intros [Hnd _] c Hc. destruct c as [|a c]; [done|]. simpl.
    by apply filter_cid_find.
Qed.

(** X13.  [stat] answers [None] exactly for the ids the index does not
    hold; for a row of the index it answers with the id, name, size,
    media type, pin flag and upload time of that row, not with its
    [local_path]; what the files hold plays no part. *)
Theorem stat_reports (w : World) :
  (forall c, stat c w = None <-> forall r, r ∈ db w -> cid r ≠ c) /\
  (schema_ok (db w) ->
   forall r, r ∈ db w ->
     stat (cid r) w
     = Some (JDict [ ("cid", JStr (cid r)); ("name", JStr (name r));
                     ("size_bytes", JInt (size_bytes r));
                     ("mime_type", JStr (mime_type r));
                     ("pinned", JBool (pinned r));
                     ("uploaded_at", JStr (uploaded_at r)) ]%string)) /\
  (forall c files out, stat c (mk_world files (db w) out) = stat c w).
Proof.
  split; [|split].
  - intros c. unfold stat, get. rewrite <- find_cid_None.
    destruct (find_cid c (db w)); [split; discriminate | done].
  - intros [Hnd _] r Hr. unfold stat, get. by rewrite (find_cid_elem _ _ Hnd Hr).
  - reflexivity.
Qed.

Lemma substring_all (s : string) : String.substring 0 (String.length s) s = s.
Proof. induction s as [|x s IH]; [done|]. cbn. by rewrite IH. Qed.

Lemma substring_app_take (a b : string) :
  String.substring 0 (String.length a) (a +:+ b) = a.
Proof.
  induction a as [|x a IH]; [by destruct b|].
  change (String x a +:+ b) with (String x (a +:+ b)). cbn. by rewrite IH.
Qed.

Lemma substring_app_skip (a b : string) k m :
  String.substring (String.length a + k) m (a +:+ b) = String.substring k m b.
Proof.
  induction a as [|x a IH]; [done|].
  change (String x a +:+ b) with (String x (a +:+ b)). cbn. exact IH.
Qed.

(** X14.  [proxy_url] keeps ids apart: under one gateway two ids have the
    same URL only when they are the same id; the URL starts with the
    gateway, goes on with ["/ipfs/"] and ends with the id. *)
Theorem proxy_url_injective (gateway c c' : string) :
  (proxy_url c gateway = proxy_url c' gateway -> c = c') /\
  String.length (proxy_url c gateway)
  = (String.length gateway + 6 + String.length c)%nat /\
  String.substring 0 (String.length gateway) (proxy_url c gateway) = gateway /\
  String.substring (String.length gateway) 6 (proxy_url c gateway) = "/ipfs/" /\
  String.substring (String.length gateway + 6) (String.length c) (proxy_url c gateway)
  = c.
Proof.
  unfold proxy_url. split; [|split; [|split; [|split]]].
  - intros H. apply append_inj_l in H. by injection H.
  - rewrite !append_length. simpl. lia.
  - apply substring_app_take.
  - rewrite <- (Nat.add_0_r (String.length gateway)), substring_app_skip.
    apply (substring_app_take "/ipfs/" c).
  - rewrite substring_app_skip.
    change (String.substring 6 (String.length c) ("/ipfs/" +:+ c))
      with (String.substring 0 (String.length c) c).
    apply substring_all.
Qed.

(** X15.  Exporting the ids that [ls] lists gives the metadata of every
    row, once each and in row order.  The export of a concatenation of id
    lists is the concatenation of the exports, so an id given twice is
    exported twice. *)
Theorem export_of_ls (w : World) :
  (schema_ok (db w) -> export_objects (cid <$> ls None w) w = asdict <$> db w) /\
  (forall cids1 cids2,
     export_objects (cids1 ++ cids2) w
     = export_objects cids1 w ++ export_objects cids2 w).
Proof.
  split.
  - intros [Hnd _]. unfold export_objects, get. simpl.
    assert (forall l : list ContentObject,
              (forall r, r ∈ l -> find_cid (cid r) (db w) = Some r) ->
              omap (fun c => asdict <$> find_cid c (db w)) (cid <$> l) = asdict <$> l)
      as Hl.
    { induction l as [|x l IH]; intros Hall; [done|].
      rewrite !fmap_cons. simpl. rewrite (Hall x) by left. simpl. f_equal.
      apply IH. intros r Hr. apply Hall. by right. }
    apply Hl. intros r Hr. by apply find_cid_elem.
  - intros cids1 cids2. unfold export_objects. apply omap_app.
Qed.

End Reading.

Lemma ls_lists_witness :
  ls (Some "QmKept"%string) Sample.stocked = [Sample.kept_row] /\
  ls (Some "QmNone"%string) Sample.stocked = [].
Proof.
  destruct (ls_lists Sample.stocked) as (_ & _ & _ & H).
  assert (schema_ok (db Sample.stocked)) as Hs by (split; by_compute).
  split.
  - exact (H Hs "QmKept"%string ltac:(discriminate)).
  - exact (H Hs "QmNone"%string ltac:(discriminate)).
Defined.

Lemma stat_reports_witness :
  stat "QmKept" Sample.stocked
  = Some (JDict [ ("cid", JStr "QmKept"); ("name", JStr "kept.md");
                  ("size_bytes", JInt 3); ("mime_type", JStr "text/markdown");
                  ("pinned", JBool true);
                  ("uploaded_at", JStr "2020-01-01T00:00:00") ]%string) /\
  stat "QmNone" Sample.stocked = None.
Proof.
  destruct (stat_reports Sample.stocked) as (Hnone & Hsome & _).
  split.
  - apply (Hsome ltac:(split; by_compute) Sample.kept_row). by_compute.
  - apply Hnone. intros r Hr.
    apply elem_of_cons in Hr as [->|Hr]; [discriminate|].
    apply list_elem_of_singleton in Hr as ->. discriminate.
Defined.

Lemma export_of_ls_witness :
  export_objects ["QmOld"; "QmKept"]%string Sample.stocked
  = [asdict Sample.old_row; asdict Sample.kept_row].
Proof.
  apply (proj1 (export_of_ls Sample.stocked)). split; by_compute.
Defined.


(** ** What every call keeps *)

Section Backed.

Variable home : string.
Variable json_dumps : json -> list byte.

Implicit Types (w : World) (r : ContentObject).

Lemma put_and_index_backed obj data w :
  schema_ok (db w) -> blob_of_record w ->
  let w' := _store_metadata obj (set_fs (<[local_path obj := data]> (fs w)) w) in
  schema_ok (db w') /\ blob_of_record w'.
Proof.
  intros Hs Hb w'. split; [by apply (store_metadata_schema obj (set_fs _ w))|].
  intros r Hr. subst w'. simpl in *. rewrite lookup_insert_is_Some'.
  apply elem_of_app in Hr as [Hr|Hr].
  - apply list_elem_of_filter in Hr as [_ Hr]. right. by apply Hb.
  - apply list_elem_of_singleton in Hr as ->. by left.
Qed.

Lemma update_pinned_backed c v w :
  schema_ok (db w) -> blob_of_record w ->
  schema_ok (db (update_pinned c v w)) /\ blob_of_record (update_pinned c v w).
Proof.
  intros Hs Hb. split; [by apply update_pinned_schema|].
  intros r' Hr'. simpl in *. apply list_elem_of_fmap in Hr' as (r & -> & Hr).
  specialize (Hb r Hr). by destruct (String.eqb (cid r) c).
Qed.

Lemma gc_backed now w :
  schema_ok (db w) -> blob_of_record w ->
  schema_ok (db (gc now w).2) /\ blob_of_record (gc now w).2.
Proof.
  intros Hs Hb. destruct (gc_world now w) as [->|[cutoff ->]]; [done|].
  split; [by apply gc_sweep_schema|].
  intros r Hr. rewrite gc_sweep_db_schema in Hr by done.
  apply list_elem_of_filter in Hr as [Hne Hr].
  destruct (gc_eligible cutoff r) eqn:He.
  { exfalso. apply Hne. split; [done | by apply Hb]. }
  destruct (gc_sweep_not_selected cutoff w r Hs Hr He) as [_ ->]. by apply Hb.
Qed.

Lemma run_backed k w :
  schema_ok (db w) -> blob_of_record w ->
  schema_ok (db (run home json_dumps w k)) /\ blob_of_record (run home json_dumps w k).
Proof.
  intros Hs Hb. destruct k; simpl.
  - destruct (add_file home path now w) as [[o|e] w'] eqn:E.
    + apply add_file_Ok_inv in E as (data & _ & _ & _ & _ & ->). simpl.
      by apply put_and_index_backed.
    + unfold add_file in E. destruct (fs w !! path); [|by injection E as _ <-].
      destruct (String.eqb _ _); [by injection E as _ <- | discriminate].
  - unfold add_json. simpl.
    by apply (put_and_index_backed (mk_object _ _ _ _ _ _ _)).
  - unfold pin. destruct (get w c); [|done]. by apply update_pinned_backed.
  - unfold unpin. destruct (get w c); [|done]. by apply update_pinned_backed.
  - by apply gc_backed.
  - split; [done|]. intros r Hr. simpl. rewrite lookup_insert_is_Some'. right.
    by apply Hb.
Qed.

(** X16.  No call leaves a row without its blob, and none breaks the
    primary key or the unique [local_path]: from a state where the
    constraints hold and every row's blob can be read, this is again so
    after any sequence of [add_file], [add_json], [pin], [unpin], [gc] and
    [export_car] calls, whatever their arguments. *)
Theorem calls_keep_rows_backed (ks : list call) (w : World) :
  schema_ok (db w) ->
  (forall r, r ∈ db w -> is_Some (fs w !! local_path r)) ->
  schema_ok (db (run_all home json_dumps w ks)) /\
  (forall r, r ∈ db (run_all home json_dumps w ks) ->
     is_Some (fs (run_all home json_dumps w ks) !! local_path r)).
Proof.
  revert w. induction ks as [|k ks IH]; intros w Hs Hb; [done|].
  simpl. destruct (run_backed k w Hs Hb) as [Hs' Hb']. by apply IH.
Qed.

(** *** The command line *)

Lemma ls_prints (l : list ContentObject) w :
  fold_left (fun w' obj => print (ls_line obj) w') l w
  = mk_world (fs w) (db w) (stdout w ++ (ls_line <$> l)).
Proof.
  revert w. induction l as [|x l IH]; intros w.
  - simpl. rewrite app_nil_r. by destruct w.
  - simpl. rewrite IH. simpl. by rewrite <- app_assoc.
Qed.


Lemma with_pinned_same v r : pinned r = v -> with_pinned v r = r.
Proof. destruct r. simpl. by intros ->. Qed.

(** X18.  No command but [add] removes or unpins a pinned row: after
    [ls], [get], [stat], [pin] of any id, [gc] at any clock value or no
    command at all, a row that was pinned is in the index unchanged and
    the file at its [local_path] is as it was. *)
Theorem main_keeps_pinned (a : args) (now : Datetime.datetime) (w : World)
        (r : ContentObject) :
  schema_ok (db w) -> r ∈ db w -> pinned r = true ->
  (forall path, a ≠ ArgsAdd path) ->
  r ∈ db (main home json_dumps a now w).2 /\
  fs (main home json_dumps a now w).2 !! local_path r = fs w !! local_path r.
Proof.
  intros Hs Hr Hp Ha. destruct a as [path|c|c|c|c| |]; simpl.
  - by destruct (Ha path).
  - by rewrite ls_prints.
  - by destruct (get w c).
  - by destruct (stat c w).
  - unfold pin. destruct (get w c); [|done]. simpl. split; [|done].
    apply list_elem_of_fmap. exists r. split; [|done].
    destruct (String.eqb (cid r) c); [|done]. symmetry. by apply with_pinned_same.
  - destruct (gc now w) as [[n|e] w'] eqn:E; simpl.
    + destruct (gc_world now w) as [Hw|[cutoff Hw]]; rewrite E in Hw; simpl in Hw;
        subst w'; [done|].
      destruct (gc_sweep_not_selected cutoff w r Hs Hr) as [H1 H2].
      { unfold gc_eligible. by rewrite Hp. }
      split; [|exact H2]. by apply find_cid_Some in H1 as [? _].
    + unfold gc in E. destruct (Datetime.dt_sub _ _); [discriminate|].
      by injection E as _ <-.
  - done.
Qed.

End Backed.

Lemma calls_keep_rows_backed_witness :
  let w := run_all Sample.home Sample.dumps Sample.stocked
             [ CallGc Sample.later; CallExport ["QmKept"%string] (Sample.blob_path "QmKept");
               CallUnpin "QmKept"; CallAddJson (JDict []) "data.json" Sample.noon ] in
  schema_ok (db w) /\ (forall r, r ∈ db w -> is_Some (fs w !! local_path r)).
Proof.
  apply (calls_keep_rows_backed Sample.home Sample.dumps).
  - split; by_compute.
  - apply Forall_forall. by_compute.
Defined.

Lemma main_keeps_pinned_witness :
  Sample.kept_row ∈ db (main Sample.home Sample.dumps ArgsGc Sample.later Sample.dangling).2 /\
  fs (main Sample.home Sample.dumps ArgsGc Sample.later Sample.dangling).2
     !! Sample.blob_path "QmKept"
  = fs Sample.dangling !! Sample.blob_path "QmKept".
Proof.
  apply (main_keeps_pinned Sample.home Sample.dumps ArgsGc Sample.later Sample.dangling
           Sample.kept_row).
  - split; by_compute.
  - by_compute.
  - reflexivity.
  - discriminate.
Defined.
